(** * Mining-Software-Repository: comment classification, reviewer
  attribution and closed-loop cohort comparison

  Shallow embedding of the decision logic of
  - [src/02_preprocess.py]  (reviewer type of a pull request),
  - [src/04_metrics_rq2.py] (categories and sentiment of review comments,
    expansion to one row per category),
  - [src/05_metrics_rq3.py] (closed-loop / open-loop cohorts, which
    descriptive rows and which tests are appended to [results]).

  Python [str] values are modelled as [string] over ASCII characters,
  Python dictionaries as [gmap], pandas columns as lists whose missing
  entries (None / NaN) are [None]. *)

From Stdlib Require Import ZArith QArith Ascii String.
From stdpp Require Import gmap strings list fin_maps sorting.

Open Scope string_scope.
Open Scope list_scope.
Open Scope Z_scope.

(** ** Python string primitives *)

Module Text.

(** [c.lower()] on one character. Texts are taken to be ASCII: 'A'..'Z'
    are shifted to 'a'..'z', every other character code is unchanged. *)
Definition lower_ascii (c : ascii) : ascii :=
  let n := nat_of_ascii c in
  if ((65 <=? n) && (n <=? 90))%nat then ascii_of_nat (n + 32) else c.

(** [s.lower()] *)
Fixpoint lower (s : string) : string :=
  match s with
  | EmptyString => EmptyString
  | String c rest => String (lower_ascii c) (lower rest)
  end.

(** [hay.startswith(needle)] *)
Fixpoint starts_with (needle hay : string) : bool :=
  match needle, hay with
  | EmptyString, _ => true
  | String _ _, EmptyString => false
  | String a n', String b h' => if Ascii.eqb a b then starts_with n' h' else false
  end.

(** [needle in hay]: the needle starts at some position of the hay. *)
Fixpoint str_in (needle hay : string) : bool :=
  starts_with needle hay ||
  match hay with
  | EmptyString => false
  | String _ rest => str_in needle rest
  end.

(** [any(k in s for k in keywords)] *)
Definition any_in (keywords : list string) (s : string) : bool :=
  existsb (fun k => str_in k s) keywords.

(** [sum(1 for w in words if w in s)] *)
Definition count_present (words : list string) (s : string) : nat :=
  length (List.filter (fun w => str_in w s) words).

(** Number of positions of the hay at which the needle starts (every
    occurrence counted, not only the first). The script never computes
    this; it is the "count of occurrences" reading of the sentiment rule,
    kept to compare with [count_present]. *)
Fixpoint occurrences (needle hay : string) : nat :=
  ((if starts_with needle hay then 1 else 0) +
   match hay with
   | EmptyString => 0
   | String _ rest => occurrences needle rest
   end)%nat.

Definition total_occurrences (words : list string) (s : string) : nat :=
  foldr (fun w acc => (occurrences w s + acc)%nat) 0%nat words.

(** A keyword occurs in a text, the case of letters ignored: some
    contiguous piece of the text is the keyword once lowered. *)
Definition occurs_in (k text : string) : Prop :=
  ∃ pre mid post, text = pre +:+ mid +:+ post ∧ lower mid = k.

End Text.

(** ** 04_metrics_rq2.py *)

Module Rq2.
Import Text.

Definition CORRECTIVE_KEYWORDS : list string :=
  [ "bug"; "error"; "fix"; "wrong"; "incorrect"; "mistake"; "issue"; "problem";
    "broken"; "fails"; "exception"; "crash"; "null"; "undefined" ].

Definition STYLE_KEYWORDS : list string :=
  [ "style"; "format"; "indent"; "spacing"; "naming"; "convention"; "lint";
    "pep8"; "pylint"; "formatting"; "whitespace"; "semicolon"; "brace" ].

Definition SECURITY_KEYWORDS : list string :=
  [ "security"; "vulnerability"; "xss"; "sql injection"; "csrf"; "auth";
    "authentication"; "authorization"; "password"; "token"; "secret"; "key";
    "encrypt"; "hash"; "sanitize"; "escape"; "injection" ].

Definition TESTING_KEYWORDS : list string :=
  [ "test"; "testing"; "coverage"; "unit test"; "integration"; "mock";
    "assert"; "should test"; "missing test"; "test case"; "scenario" ].

(** [categories.append(label)] guarded by [any(...)]. *)
Definition append_if (b : bool) (label : string) (categories : list string)
  : list string :=
  if b then categories ++ [label] else categories.

(** [categorize_comment]; [None] is a text for which [pd.isna] holds. *)
Definition categorize_comment (comment_text : option string) : list string :=
  match comment_text with
  | None => []
  | Some text =>
      let text_lower := lower text in
      let categories := [] in
      let categories :=
        append_if (any_in CORRECTIVE_KEYWORDS text_lower) "corrective" categories in
      let categories :=
        append_if (any_in STYLE_KEYWORDS text_lower) "style" categories in
      let categories :=
        append_if (any_in SECURITY_KEYWORDS text_lower) "security" categories in
      let categories :=
        append_if (any_in TESTING_KEYWORDS text_lower) "testing" categories in
      match categories with
      | [] => categories ++ ["other"]
      | _ :: _ => categories
      end
  end.

Definition positive_words : list string :=
  [ "good"; "great"; "nice"; "excellent"; "perfect"; "thanks"; "thank you";
    "approved"; "looks good"; "well done"; "lgtm" ].

Definition negative_words : list string :=
  [ "bad"; "wrong"; "incorrect"; "should not"; "don't"; "cannot"; "error";
    "issue"; "problem"; "concern"; "worried"; "disappointed" ].

(** [analyze_sentiment] *)
Definition analyze_sentiment (comment_text : option string) : string :=
  match comment_text with
  | None => "neutral"
  | Some text =>
      let text_lower := lower text in
      let positive_count := count_present positive_words text_lower in
      let negative_count := count_present negative_words text_lower in
      if (negative_count <? positive_count)%nat then "positive"
      else if (positive_count <? negative_count)%nat then "negative"
      else "neutral"
  end.

(** The sentiment rule read with every occurrence counted; compared with
    [analyze_sentiment] below. *)
Definition sentiment_by_occurrences (text : string) : string :=
  let text_lower := lower text in
  let positive_count := total_occurrences positive_words text_lower in
  let negative_count := total_occurrences negative_words text_lower in
  if (negative_count <? positive_count)%nat then "positive"
  else if (positive_count <? negative_count)%nat then "negative"
  else "neutral".

(** One row of [rq2_data]. [row_id] is [None] when the frame has no
    column named "id", so that [row.get("id", idx)] falls back to the
    index label. *)
Record comment_row := {
  row_pr_id : Z;
  row_id : option Z;
  row_body : option string
}.

(** A row after the two [apply] calls added the columns "categories"
    and "sentiment". *)
Record classified_row := {
  cr_idx : Z;
  cr_row : comment_row;
  cr_categories : list string;
  cr_sentiment : string
}.

Definition classify_row (idx : Z) (row : comment_row) : classified_row :=
  {| cr_idx := idx;
     cr_row := row;
     cr_categories := categorize_comment (row_body row);
     cr_sentiment := analyze_sentiment (row_body row) |}.

Record expanded_row := {
  e_pr_id : Z;
  e_comment_id : Z;
  e_category : string;
  e_sentiment : string;
  e_has_multiple_categories : bool
}.

(** [row.get("id", idx)] *)
Definition comment_id (c : classified_row) : Z :=
  default (cr_idx c) (row_id (cr_row c)).

(** Body of the [for idx, row in rq2_data.iterrows()] loop: the rows
    appended to [expanded_rows] for one comment. *)
Definition expand_row (c : classified_row) : list expanded_row :=
  if (0 <? length (cr_categories c))%nat then
    List.map (fun category =>
           {| e_pr_id := row_pr_id (cr_row c);
              e_comment_id := comment_id c;
              e_category := category;
              e_sentiment := cr_sentiment c;
              e_has_multiple_categories := (1 <? length (cr_categories c))%nat |})
        (cr_categories c)
  else
    [ {| e_pr_id := row_pr_id (cr_row c);
         e_comment_id := comment_id c;
         e_category := "other";
         e_sentiment := cr_sentiment c;
         e_has_multiple_categories := false |} ].

(** [rq2_data] as the list of its (index label, row) pairs, in
    [iterrows] order. *)
Definition expanded_rows (rq2_data : list (Z * comment_row)) : list expanded_row :=
  List.flat_map (fun '(idx, row) => expand_row (classify_row idx row)) rq2_data.

End Rq2.

(** ** 02_preprocess.py: reviewer type of a pull request *)

Module Preprocess.
Import Text.

Definition BOT_KEYWORDS : list string :=
  [ "copilot"; "cursor"; "codex"; "claude"; "devin" ].

(** One row of [pr_reviews] or [pr_comments], reduced to the column that
    links it to a pull request and the login column picked by
    [_pick_login_col]; either entry may be missing. *)
Record activity_row := {
  a_pr_id : option Z;
  a_login : option string
}.

(** A source frame is [None] when its link column or its login column
    cannot be resolved, so that the script skips the frame. *)
Definition source := option (list activity_row).

(** [.fillna("").astype(str)] on one login *)
Definition fillna_login (l : option string) : string := default "" l.

(** [any(k in (l or "").lower() for k in BOT_KEYWORDS)] *)
Definition is_bot_login (l : string) : bool := any_in BOT_KEYWORDS (lower l).

(** Keys of [groupby]: the distinct link values that are present, in
    increasing order (rows without a link value belong to no group). *)
Definition group_keys (rows : list activity_row) : list Z :=
  merge_sort Z.le (remove_dups (omap a_pr_id rows)).

(** [.apply(list)] for one key: its logins in row order. *)
Definition group_logins (k : Z) (rows : list activity_row) : list string :=
  (fun r => fillna_login (a_login r)) <$> filter (fun r => a_pr_id r = Some k) rows.

Definition grouped (rows : list activity_row) : list (Z * list string) :=
  (fun k => (k, group_logins k rows)) <$> group_keys rows.

(** [d.setdefault(k, v)] for its effect on the dictionary *)
Definition setdefault (k : Z) (v : string) (d : gmap Z string) : gmap Z string :=
  match d !! k with
  | Some _ => d
  | None => <[k := v]> d
  end.

(** Body of [for pr_id, logins in grouped.items()] *)
Definition record_group (d : gmap Z string) (g : Z * list string) : gmap Z string :=
  if existsb is_bot_login g.2 then <[g.1 := "bot"]> d
  else setdefault g.1 "human" d.

(** One of the two analysis blocks, run on the dictionary built so far. *)
Definition analyse (src : source) (d : gmap Z string) : gmap Z string :=
  match src with
  | None => d
  | Some rows => foldl record_group d (grouped rows)
  end.

(** The dictionary after the reviews block and then the comments block. *)
Definition reviewer_type_map (pr_reviews pr_comments : source) : gmap Z string :=
  analyse pr_comments (analyse pr_reviews ∅).

Definition map_reviewer_type (d : gmap Z string) (pr_id : Z) : string :=
  default "none" (d !! pr_id).

(** The value stored in [pr_clean["reviewer_type"]] for one PR id. *)
Definition reviewer_type (pr_reviews pr_comments : source) (pr_id : Z) : string :=
  map_reviewer_type (reviewer_type_map pr_reviews pr_comments) pr_id.

(** What [record_group] leaves in the dictionary for the PR of a group,
    given the entry found there: "bot" overwrites, "human" only fills an
    empty place. *)
Definition group_label (logins : list string) (previous : option string) : string :=
  if existsb is_bot_login logins then "bot" else default "human" previous.

(** Rows a source contributes (none when it is skipped). *)
Definition source_rows (src : source) : list activity_row := default [] src.

(** Logins a source contributes for one PR (none when it is skipped). *)
Definition source_logins (src : source) (pr_id : Z) : list string :=
  match src with
  | None => []
  | Some rows => group_logins pr_id rows
  end.

End Preprocess.

(** ** 05_metrics_rq3.py: cohorts, descriptive rows and tests *)

Module Rq3.

Record pr_row := {
  pr_id : Z;
  closed_loop : option Z;
  merged : option Z;
  review_duration_hours : option Q;
  n_comments : option Q
}.

(** [df[df[col] == v]]: a missing entry compares unequal to every [v]. *)
Definition select_eq (col : pr_row -> option Z) (v : Z) (df : list pr_row)
  : list pr_row :=
  filter (fun r => col r = Some v) df.

Definition closed_loop_prs (rq3_data : list pr_row) : list pr_row :=
  select_eq closed_loop 1 rq3_data.

Definition open_loop_prs (rq3_data : list pr_row) : list pr_row :=
  select_eq closed_loop 0 rq3_data.

(** The rows that neither mask [== 1] nor [== 0] selects. The script
    keeps no frame for them; they are what is left of the input. *)
Definition unselected (col : pr_row -> option Z) (df : list pr_row)
  : list pr_row :=
  filter (fun r => col r ≠ Some 1 ∧ col r ≠ Some 0) df.

(** [series.dropna()] *)
Definition dropna {A} (series : list (option A)) : list A := omap id series.

(** Result of [pd.crosstab]: row labels, column labels, cell counts. *)
Record crosstab := {
  ct_index : list Z;
  ct_columns : list Z;
  ct_counts : list (list nat)
}.

(** [table.size] *)
Definition ct_size (t : crosstab) : nat :=
  (length (ct_index t) * length (ct_columns t))%nat.

Definition both_present (p : option Z * option Z) : option (Z * Z) :=
  match p with
  | (Some x, Some y) => Some (x, y)
  | _ => None
  end.

(** The value pairs of the rows in which both columns have an entry. *)
Definition observed_pairs (a b : list (option Z)) : list (Z * Z) :=
  omap both_present (zip a b).

Definition sorted_unique (l : list Z) : list Z :=
  merge_sort Z.le (remove_dups l).

(** [pd.crosstab(a, b)] on two columns of one frame: rows with a missing
    entry are left out, the labels are the observed values in order, and
    each cell counts the rows carrying that pair. *)
Definition pd_crosstab (a b : list (option Z)) : crosstab :=
  let pairs := observed_pairs a b in
  let index := sorted_unique pairs.*1 in
  let columns := sorted_unique pairs.*2 in
  {| ct_index := index;
     ct_columns := columns;
     ct_counts :=
       (fun i => (fun j => length (filter (fun p => p = (i, j)) pairs)) <$> columns)
         <$> index |}.

(** A dictionary appended to [results]. The floating-point statistics
    that pandas, scipy and cliffs_delta compute are not evaluated: a row
    records which row it is and the data its statistics are computed
    from.
    - [Descriptive]: median, mean, std (and quartiles) of [values], with
      the "count" entry;
    - [RankSum]: [stats.mannwhitneyu(x, y, alternative='two-sided')] and
      [cliffs_delta(x, y)], stored in one row;
    - [ChiSquare]: [stats.chi2_contingency(table)]. *)
Inductive result_row :=
| Proportion (closed_loop_count open_loop_count total : nat)
| Descriptive (metric group : string) (values : list Q) (count : nat)
| MergeRate (group : string) (count : nat) (merged_column : list (option Z))
| RankSum (metric : string) (x y : list Q)
| ChiSquare (table : crosstab).

(** [if len(values) > 0: results.append({...})] *)
Definition describe (metric group : string) (values : list Q) : list result_row :=
  if (0 <? length values)%nat
  then [Descriptive metric group values (length values)]
  else [].

(** [if len(x) > 0 and len(y) > 0: ... results.append({...})] *)
Definition rank_sum (metric : string) (x y : list Q) : list result_row :=
  if (0 <? length x)%nat && (0 <? length y)%nat
  then [RankSum metric x y]
  else [].

(** [if contingency_table.size > 0: ... results.append({...})] *)
Definition chi_square (table : crosstab) : list result_row :=
  if (0 <? ct_size table)%nat then [ChiSquare table] else [].

Definition closed_loop_duration (rq3_data : list pr_row) : list Q :=
  dropna (review_duration_hours <$> closed_loop_prs rq3_data).
Definition open_loop_duration (rq3_data : list pr_row) : list Q :=
  dropna (review_duration_hours <$> open_loop_prs rq3_data).
Definition closed_loop_comments (rq3_data : list pr_row) : list Q :=
  dropna (n_comments <$> closed_loop_prs rq3_data).
Definition open_loop_comments (rq3_data : list pr_row) : list Q :=
  dropna (n_comments <$> open_loop_prs rq3_data).

Definition contingency_table (rq3_data : list pr_row) : crosstab :=
  pd_crosstab (closed_loop <$> rq3_data) (merged <$> rq3_data).

(** The list [results] at the end of section 4 of the script, in the
    order of the [append] calls. *)
Definition results (rq3_data : list pr_row) : list result_row :=
  [ Proportion (length (closed_loop_prs rq3_data))
               (length (open_loop_prs rq3_data))
               (length rq3_data) ]
  ++ describe "review_duration_hours" "closed-loop" (closed_loop_duration rq3_data)
  ++ describe "review_duration_hours" "open-loop" (open_loop_duration rq3_data)
  ++ [ MergeRate "closed-loop" (length (closed_loop_prs rq3_data))
                 (merged <$> closed_loop_prs rq3_data);
       MergeRate "open-loop" (length (open_loop_prs rq3_data))
                 (merged <$> open_loop_prs rq3_data) ]
  ++ describe "n_comments" "closed-loop" (closed_loop_comments rq3_data)
  ++ describe "n_comments" "open-loop" (open_loop_comments rq3_data)
  ++ rank_sum "review_duration_hours"
              (closed_loop_duration rq3_data) (open_loop_duration rq3_data)
  ++ chi_square (contingency_table rq3_data)
  ++ rank_sum "n_comments"
              (closed_loop_comments rq3_data) (open_loop_comments rq3_data).

End Rq3.

(** ** Column resolution (02_preprocess.py, 04_metrics_rq2.py) *)

Module Columns.
Import Text.

(** [_pick_login_col(df, candidates)], with [df.columns] as a list *)
Fixpoint _pick_login_col (columns candidates : list string) : option string :=
  match candidates with
  | [] => None
  | c :: rest =>
      if bool_decide (c ∈ columns) then Some c else _pick_login_col columns rest
  end.

(** ["pr_id" if "pr_id" in columns else ("pull_request_id" if ... else None)] *)
Definition pr_id_col (columns : list string) : option string :=
  if bool_decide ("pr_id" ∈ columns) then Some "pr_id"
  else if bool_decide ("pull_request_id" ∈ columns) then Some "pull_request_id"
  else None.

(** One entry of [columns.str.contains("comment|text|content", case=False)] *)
Definition comment_like (name : string) : bool :=
  any_in ["comment"; "text"; "content"] (lower name).

(** The conditional expression that first assigns [comment_column]. *)
Definition comment_column (columns : list string) : option string :=
  if bool_decide ("body" ∈ columns) then Some "body"
  else if existsb comment_like columns then head (List.filter comment_like columns)
  else None.

(** [comment_column] after the [if comment_column is None] block, which
    falls back to [columns[0]]; [None] stands for the IndexError raised on a
    frame without columns. *)
Definition comment_column_or_first (columns : list string) : option string :=
  match comment_column columns with
  | Some c => Some c
  | None => head columns
  end.

End Columns.

(** ** Raw frames and the sources read from them (02_preprocess.py) *)

Module RawFrames.
Import Preprocess Columns.

(** One row of [pr_reviews] or [pr_comments]: its integer cells and its
    text cells by column name. A column without an entry is missing (NaN /
    None) in this row. Link columns hold integers, login columns text. *)
Record raw_row := {
  ints : gmap string Z;
  strs : gmap string string
}.

Record raw_frame := {
  frame_columns : list string;
  frame_rows : list raw_row
}.

Definition reviews_login_candidates : list string :=
  [ "author_login"; "user_login"; "login"; "reviewer_login"; "actor_login" ].

Definition comments_login_candidates : list string :=
  [ "author_login"; "user_login"; "login"; "commenter_login"; "actor_login";
    "user" ].

(** A row as the analysis block reads it, through the two resolved
    columns. *)
Definition read_row (link login : string) (raw : raw_row) : activity_row :=
  {| a_pr_id := ints raw !! link; a_login := strs raw !! login |}.

(** The guard [if pr_id_col is not None and login_col is not None]: a
    frame is analysed through its resolved columns, or skipped. *)
Definition frame_source (candidates : list string) (f : raw_frame) : source :=
  match pr_id_col (frame_columns f), _pick_login_col (frame_columns f) candidates with
  | Some link, Some login => Some (read_row link login <$> frame_rows f)
  | _, _ => None
  end.

(** [pr_clean["reviewer_type"]] for one PR id, from the two raw frames. *)
Definition frame_reviewer_type (pr_reviews pr_comments : raw_frame) (pr_id : Z)
  : string :=
  reviewer_type (frame_source reviews_login_candidates pr_reviews)
                (frame_source comments_login_candidates pr_comments) pr_id.

End RawFrames.

(** ** Statistics per category and per PR (04_metrics_rq2.py, sections 3-4) *)

Module Rq2Stats.
Import Rq2.

(** Order of the group keys of [groupby(["category", "sentiment"])]:
    by category, then by sentiment, strings compared character by
    character. *)
Definition key_le (a b : string * string) : Prop :=
  String.ltb a.1 b.1 = true ∨ (a.1 = b.1 ∧ String.leb a.2 b.2 = true).

#[global] Instance key_le_dec : RelDecision key_le.
Proof. intros a b. unfold key_le. apply _. Defined.

(** The group key of an expanded row. *)
Definition group_key (e : expanded_row) : string * string :=
  (e_category e, e_sentiment e).

(** [expanded_df.groupby(["category", "sentiment"]).size()
    .reset_index(name="count")]: one line per pair present, in key order,
    with the number of rows of the pair. Without any expanded row,
    [pd.DataFrame(expanded_rows)] has no column and the [groupby] raises
    KeyError: [None]. *)
Definition sentiment_by_category (expanded_df : list expanded_row)
  : option (list ((string * string) * nat)) :=
  match expanded_df with
  | [] => None
  | _ :: _ =>
      Some ((fun k => (k, length (filter (fun e => group_key e = k) expanded_df)))
              <$> merge_sort key_le (remove_dups (group_key <$> expanded_df)))
  end.

(** [rq2_data.groupby("pr_id").size().reset_index(name="n_comments")] *)
Definition comments_per_pr (rq2_data : list (Z * comment_row)) : list (Z * nat) :=
  (fun k => (k, length (filter (fun ir => row_pr_id ir.2 = k) rq2_data)))
    <$> Rq3.sorted_unique ((fun ir => row_pr_id ir.2) <$> rq2_data).

End Rq2Stats.

(** ** Frames built by 02_preprocess.py *)

Module Frames.

(** One row of [pr] (pr_filtered_enriched), with the columns the script
    reads. *)
Record pr_record := {
  id : Z;
  author_type : option string;
  merged : option Z;
  review_duration_hours : option Q;
  n_comments : option Q;
  closed_loop : option Z
}.

(** [notna() & (>= 0)] on the duration of one row *)
Definition duration_valid (r : pr_record) : bool :=
  match review_duration_hours r with
  | Some d => Qle_bool 0 d
  | None => false
  end.

Definition pr_clean (pr : list pr_record) : list pr_record :=
  List.filter duration_valid pr.

(** [pr_clean["merged"].map({1: "merged", 0: "closed"})] on one row *)
Definition status (r : pr_record) : option string :=
  match merged r with
  | Some 1 => Some "merged"
  | Some 0 => Some "closed"
  | _ => None
  end.

(** [(rq1_data["author_type"] == "ai").astype(int)] on one row *)
Definition is_ai (r : pr_record) : Z :=
  if bool_decide (author_type r = Some "ai") then 1 else 0.

Definition rq3_data (pr : list pr_record) : list pr_record :=
  filter (fun r => author_type r = Some "ai") (pr_clean pr).

(** [rq3_data["closed_loop"].map({1: "closed-loop", 0: "open-loop"})] *)
Definition loop_type (r : pr_record) : option string :=
  match closed_loop r with
  | Some 1 => Some "closed-loop"
  | Some 0 => Some "open-loop"
  | _ => None
  end.

(** The columns of a row of rq3_data.parquet that 05_metrics_rq3.py reads. *)
Definition to_rq3_row (r : pr_record) : Rq3.pr_row :=
  {| Rq3.pr_id := id r;
     Rq3.closed_loop := closed_loop r;
     Rq3.merged := merged r;
     Rq3.review_duration_hours := review_duration_hours r;
     Rq3.n_comments := n_comments r |}.

(** One row of [pr_comments], with its link to a PR and its text. *)
Record comment_record := {
  c_pr_id : option Z;
  c_body : option string
}.

(** [pr_comments.merge(pr_clean[["id", "author_type"]], left_on="pr_id",
    right_on="id", how="inner")]: every comment paired with every cleaned
    PR it links to, in comment order. *)
Definition rq2_pr_comments (pr_comments : list comment_record) (pr : list pr_record)
  : list (comment_record * pr_record) :=
  c ← pr_comments;
  (fun p => (c, p)) <$> filter (fun p => c_pr_id c = Some (id p)) (pr_clean pr).

Definition rq2_data (pr_comments : list comment_record) (pr : list pr_record)
  : list (comment_record * pr_record) :=
  filter (fun cp => author_type cp.2 = Some "ai") (rq2_pr_comments pr_comments pr).

(** The filter that 06_visualizations.py applies again to rq3_data before
    the box plot. *)
Definition rq3_data_clean (rq3 : list pr_record) : list pr_record :=
  List.filter duration_valid rq3.

End Frames.

(** ** The formatted summary of 05_metrics_rq3.py (section 5) *)

Module Rq3Summary.
Import Rq3.

(** A cell of the summary: the string "N/A", or a formatted number recorded
    by what it is computed from (the formatting itself is not modelled).
    - [ProportionCell c t]: [len(closed)/total if total > 0 else 0];
    - [MergeRateCell n col]: [col.mean() if n > 0 else 0];
    - [PValueCell], [EffectSizeCell]: taken from the test of that row. *)
Inductive cell :=
| NA
| ProportionCell (closed_loop_count total : nat)
| MedianCell (values : list Q)
| MeanCell (values : list Q)
| MergeRateCell (count : nat) (merged_column : list (option Z))
| PValueCell (test : result_row)
| EffectSizeCell (test : result_row).

(** The dictionary [summary]: seven lists, one per column. *)
Record summary_columns := {
  Metric : list string;
  Closed_Loop_Median : list cell;
  Open_Loop_Median : list cell;
  Closed_Loop_Mean : list cell;
  Open_Loop_Mean : list cell;
  P_Value : list cell;
  Effect_Size : list cell
}.

Definition empty_summary : summary_columns :=
  {| Metric := []; Closed_Loop_Median := []; Open_Loop_Median := [];
     Closed_Loop_Mean := []; Open_Loop_Mean := []; P_Value := [];
     Effect_Size := [] |}.

(** Seven [append] calls, one on each list. *)
Definition append_line (s : summary_columns) (metric : string)
    (closed_median open_median closed_mean open_mean p_value effect_size : cell)
  : summary_columns :=
  {| Metric := Metric s ++ [metric];
     Closed_Loop_Median := Closed_Loop_Median s ++ [closed_median];
     Open_Loop_Median := Open_Loop_Median s ++ [open_median];
     Closed_Loop_Mean := Closed_Loop_Mean s ++ [closed_mean];
     Open_Loop_Mean := Open_Loop_Mean s ++ [open_mean];
     P_Value := P_Value s ++ [p_value];
     Effect_Size := Effect_Size s ++ [effect_size] |}.

(** The [if len(x) > 0 and len(y) > 0: ... else: ...] block of a metric
    compared by the rank-sum test. *)
Definition tested_line (s : summary_columns) (label metric : string) (x y : list Q)
  : summary_columns :=
  if (0 <? length x)%nat && (0 <? length y)%nat then
    append_line s label (MedianCell x) (MedianCell y) (MeanCell x) (MeanCell y)
                (PValueCell (RankSum metric x y)) (EffectSizeCell (RankSum metric x y))
  else
    append_line s label NA NA NA NA NA NA.

(** The dictionary [summary] when it is turned into [summary_df]. The
    name [p_value_merge] is bound exactly when the chi-square block ran. *)
Definition summary (rq3_data : list pr_row) : summary_columns :=
  let s := append_line empty_summary "Closed-Loop Proportion"
             (ProportionCell (length (closed_loop_prs rq3_data)) (length rq3_data))
             NA NA NA NA NA in
  let s := tested_line s "Review Duration (hours)" "review_duration_hours"
             (closed_loop_duration rq3_data) (open_loop_duration rq3_data) in
  let s := append_line s "Merge Rate"
             (MergeRateCell (length (closed_loop_prs rq3_data))
                            (merged <$> closed_loop_prs rq3_data))
             (MergeRateCell (length (open_loop_prs rq3_data))
                            (merged <$> open_loop_prs rq3_data))
             NA NA
             (if (0 <? ct_size (contingency_table rq3_data))%nat
              then PValueCell (ChiSquare (contingency_table rq3_data)) else NA)
             NA in
  tested_line s "Number of Comments" "n_comments"
              (closed_loop_comments rq3_data) (open_loop_comments rq3_data).

End Rq3Summary.

(** * Properties *)

(** ** Strings *)

Section TextFacts.
Import Text.

Lemma lower_app (a b : string) : lower (a +:+ b) = lower a +:+ lower b.
Proof. induction a as [|c a IH]; simpl; [done | by rewrite IH]. Qed.

Lemma lower_split (t a b : string) :
  lower t = a +:+ b →
  ∃ ta tb, t = ta +:+ tb ∧ lower ta = a ∧ lower tb = b.
Proof.
  revert t. induction a as [|c a IH]; intros t H; simpl in H.
  - by exists EmptyString, t.
  - destruct t as [|d t]; simpl in H; [discriminate |].
    injection H as Hc Ht. destruct (IH _ Ht) as (ta & tb & -> & Ha & Hb).
    exists (String d ta), tb. simpl. by rewrite Hc, Ha.
Qed.

Lemma starts_with_spec (needle hay : string) :
  starts_with needle hay = true ↔ ∃ post, hay = needle +:+ post.
Proof.
  revert hay. induction needle as [|a n IH]; intros hay; simpl.
  - split; [intros _; by exists hay | done].
  - destruct hay as [|b h].
    + split; [done | intros [post H]; discriminate].
    + destruct (Ascii.eqb_spec a b) as [->|Hne].
      * rewrite IH. split; intros [post H]; exists post.
        -- by rewrite H.
        -- by injection H.
      * split; [done | intros [post H]; injection H; congruence].
Qed.

Lemma str_in_spec (needle hay : string) :
  str_in needle hay = true ↔ ∃ pre post, hay = pre +:+ needle +:+ post.
Proof.
  induction hay as [|c h IH]; simpl.
  - rewrite orb_false_r, starts_with_spec. split.
    + intros [post H]. by exists EmptyString, post.
    + intros ([|d pre] & post & H); [by exists post | discriminate].
  - rewrite orb_true_iff, starts_with_spec, IH. split.
    + intros [[post H] | (pre & post & H)].
      * by exists EmptyString, post.
      * exists (String c pre), post. simpl. by rewrite H.
    + intros ([|d pre] & post & H).
      * left. by exists post.
      * right. exists pre, post. simpl in H. by injection H.
Qed.

(** [k in text.lower()] holds exactly when some contiguous piece of the
    text equals [k] up to the case of its letters. *)
Lemma str_in_lower_spec (k text : string) :
  str_in k (lower text) = true ↔ occurs_in k text.
Proof.
  unfold occurs_in. rewrite str_in_spec. split.
  - intros (pre & post & H).
    destruct (lower_split _ _ _ H) as (tp & rest & -> & _ & Hrest).
    destruct (lower_split _ _ _ Hrest) as (tm & tq & -> & Hm & _).
    by exists tp, tm, tq.
  - intros (pre & mid & post & -> & <-).
    exists (lower pre), (lower post). by rewrite !lower_app.
Qed.

Lemma any_in_spec (keywords : list string) (s : string) :
  any_in keywords s = true ↔ ∃ k, k ∈ keywords ∧ str_in k s = true.
Proof.
  unfold any_in. rewrite existsb_exists.
  split; intros (k & Hk & H); exists k; by rewrite ?list_elem_of_In in *.
Qed.

Lemma any_in_lower_spec (keywords : list string) (text : string) :
  any_in keywords (lower text) = true ↔ ∃ k, k ∈ keywords ∧ occurs_in k text.
Proof.
  rewrite any_in_spec. by setoid_rewrite str_in_lower_spec.
Qed.

Lemma str_in_occurrences (needle hay : string) :
  str_in needle hay = (0 <? occurrences needle hay)%nat.
Proof.
  induction hay as [|c h IH]; simpl.
  - by destruct (starts_with needle EmptyString).
  - rewrite IH. destruct (starts_with needle (String c h)); simpl; [done |].
    by destruct (occurrences needle h).
Qed.

(** Each word adds one to [count_present] when it occurs at least once,
    however often it occurs. *)
Lemma count_present_occurrences (words : list string) (s : string) :
  count_present words s =
  foldr (fun w acc => (Nat.min 1 (occurrences w s) + acc)%nat) 0%nat words.
Proof.
  unfold count_present. induction words as [|w ws IH]; [done |].
  cbn [List.filter foldr]. rewrite <- IH, str_in_occurrences.
  by destruct (occurrences w s) as [|[|n]].
Qed.

End TextFacts.

(** ** Comment classifier *)

Section ClassifierFacts.
Import Text Rq2.

(** The labels of a non-missing text are those of the matching taxonomies
    in the fixed order, and "other" when none matches. *)
Lemma categorize_comment_some (text : string) :
  categorize_comment (Some text) =
  let matched :=
    ((if any_in CORRECTIVE_KEYWORDS (lower text) then ["corrective"] else []) ++
     (if any_in STYLE_KEYWORDS (lower text) then ["style"] else []) ++
     (if any_in SECURITY_KEYWORDS (lower text) then ["security"] else []) ++
     (if any_in TESTING_KEYWORDS (lower text) then ["testing"] else [])) in
  match matched with [] => ["other"] | _ :: _ => matched end.
Proof.
  unfold categorize_comment.
  destruct (any_in CORRECTIVE_KEYWORDS (lower text)),
           (any_in STYLE_KEYWORDS (lower text)),
           (any_in SECURITY_KEYWORDS (lower text)),
           (any_in TESTING_KEYWORDS (lower text)); reflexivity.
Qed.

Lemma categorize_comment_some_nonempty (text : string) :
  categorize_comment (Some text) ≠ [].
Proof.
  rewrite categorize_comment_some.
  destruct (any_in CORRECTIVE_KEYWORDS (lower text)),
           (any_in STYLE_KEYWORDS (lower text)),
           (any_in SECURITY_KEYWORDS (lower text)),
           (any_in TESTING_KEYWORDS (lower text)); discriminate.
Qed.

Lemma expand_row_categories (c : classified_row) :
  e_category <$> expand_row c =
  match cr_categories c with [] => ["other"] | _ :: _ => cr_categories c end.
Proof.
  unfold expand_row. destruct (cr_categories c) as [|l ls] eqn:E; simpl; [done |].
  f_equal. rewrite <- list_fmap_compose. simpl. by rewrite list_fmap_id.
Qed.

Lemma expand_row_shared (c : classified_row) :
  Forall (fun e =>
            e_pr_id e = row_pr_id (cr_row c) ∧
            e_comment_id e = comment_id c ∧
            e_sentiment e = cr_sentiment c ∧
            e_has_multiple_categories e = (1 <? length (cr_categories c))%nat)
         (expand_row c).
Proof.
  unfold expand_row. destruct (cr_categories c) as [|l ls]; simpl.
  - by repeat constructor.
  - constructor; [done |]. apply Forall_forall. intros e He.
    apply list_elem_of_fmap in He as (x & -> & _). done.
Qed.

(** C1, claim as stated, fails: with every occurrence counted the text has
    three positive occurrences against two negative ones, yet
    [analyze_sentiment] answers "negative", because a repeated phrase is
    counted once. *)
Lemma sentiment_repeated_phrase_counterexample :
  let text := "good good good bad wrong" in
  total_occurrences positive_words (lower text) = 3%nat ∧
  total_occurrences negative_words (lower text) = 2%nat ∧
  sentiment_by_occurrences text = "positive" ∧
  analyze_sentiment (Some text) = "negative".
Proof. repeat split; reflexivity. Qed.

(** C1, amended: for every non-missing text the sentiment compares the
    number of positive phrases that occur in the text (case ignored, each
    phrase counted once however often it occurs, a multi-word phrase as one
    contiguous piece) with the number of negative phrases that occur:
    more positive gives "positive", more negative gives "negative", a tie
    gives "neutral". *)
Theorem analyze_sentiment_counts_phrases (text : string) :
  let p := count_present positive_words (lower text) in
  let n := count_present negative_words (lower text) in
  analyze_sentiment (Some text) =
    match (p ?= n)%nat with
    | Gt => "positive"
    | Lt => "negative"
    | Eq => "neutral"
    end
  ∧ (∀ w, str_in w (lower text) = true ↔ occurs_in w text)
  ∧ p = foldr (fun w acc => (Nat.min 1 (occurrences w (lower text)) + acc)%nat)
              0%nat positive_words
  ∧ n = foldr (fun w acc => (Nat.min 1 (occurrences w (lower text)) + acc)%nat)
              0%nat negative_words.
Proof.
  intros p n. split; [| split; [| split]].
  - unfold analyze_sentiment. cbv zeta. fold p. fold n.
    destruct (Nat.compare_spec p n) as [E|L|G].
    + rewrite E. by rewrite Nat.ltb_irrefl.
    + apply Nat.ltb_lt in L as L'. rewrite L'.
      by replace (n <? p)%nat with false by (symmetry; apply Nat.ltb_ge; lia).
    + apply Nat.ltb_lt in G. by rewrite G.
  - intros w. apply str_in_lower_spec.
  - apply count_present_occurrences.
  - apply count_present_occurrences.
Qed.

Example sentiment_lgtm : analyze_sentiment (Some "lgtm, great work") = "positive".
Proof. reflexivity. Qed.

Example sentiment_wrong_bad :
  analyze_sentiment (Some "this is wrong, bad approach") = "negative".
Proof. reflexivity. Qed.

(** A multi-word phrase is matched as one piece: "Looks Good" holds both
    "good" and "looks good", "looks  good" (two spaces) only "good". *)
Example sentiment_looks_good :
  count_present positive_words (lower "Looks Good") = 2%nat ∧
  count_present positive_words (lower "looks  good") = 1%nat.
Proof. split; reflexivity. Qed.

(** C2, claim as stated, fails: for a missing text [categorize_comment]
    returns the empty list, not the list holding "other". *)
Lemma categorize_missing_counterexample :
  categorize_comment None = [] ∧ categorize_comment None ≠ ["other"].
Proof. split; [reflexivity | discriminate]. Qed.

(** C2, amended: for a missing text [categorize_comment] returns no label
    and [analyze_sentiment] returns "neutral"; the label "other" appears in
    the expansion step, which emits for such a comment exactly one row with
    category "other", sentiment "neutral" and the multi-category flag
    off. *)
Theorem missing_text_classification (idx pr : Z) (id : option Z) :
  categorize_comment None = [] ∧
  analyze_sentiment None = "neutral" ∧
  expand_row (classify_row idx {| row_pr_id := pr; row_id := id; row_body := None |}) =
    [ {| e_pr_id := pr;
         e_comment_id := default idx id;
         e_category := "other";
         e_sentiment := "neutral";
         e_has_multiple_categories := false |} ].
Proof. repeat split. Qed.

(** C3, claim as stated, fails: the text below holds the corrective
    keyword "fix" and the security keyword "auth", and its labels are
    corrective, security and testing, not corrective and security alone. *)
Lemma corrective_security_exactly_counterexample :
  let text := "fix the auth test" in
  any_in CORRECTIVE_KEYWORDS (lower text) = true ∧
  any_in SECURITY_KEYWORDS (lower text) = true ∧
  categorize_comment (Some text) = ["corrective"; "security"; "testing"] ∧
  categorize_comment (Some text) ≠ ["corrective"; "security"].
Proof. repeat split; try reflexivity. discriminate. Qed.

(** C3, amended: for every text in which a corrective keyword and a
    security keyword occur (case ignored), the labels include "corrective"
    and "security", every expanded row of the comment has
    has_multiple_categories = true, and the labels are exactly corrective and
    security when and only when no style keyword and no testing keyword
    occurs. *)
Theorem corrective_and_security_labels (text : string) (idx pr : Z) (id : option Z) :
  (∃ k, k ∈ CORRECTIVE_KEYWORDS ∧ occurs_in k text) →
  (∃ k, k ∈ SECURITY_KEYWORDS ∧ occurs_in k text) →
  let labels := categorize_comment (Some text) in
  "corrective" ∈ labels ∧ "security" ∈ labels ∧
  Forall (fun e => e_has_multiple_categories e = true)
         (expand_row (classify_row idx
            {| row_pr_id := pr; row_id := id; row_body := Some text |})) ∧
  (labels = ["corrective"; "security"] ↔
   ¬ (∃ k, k ∈ STYLE_KEYWORDS ∧ occurs_in k text) ∧
   ¬ (∃ k, k ∈ TESTING_KEYWORDS ∧ occurs_in k text)).
Proof.
  intros Hc Hs labels.
  apply any_in_lower_spec in Hc, Hs.
  assert (Hlen : (1 <? length labels)%nat = true).
  { subst labels. rewrite categorize_comment_some, Hc, Hs.
    by destruct (any_in STYLE_KEYWORDS (lower text)),
                (any_in TESTING_KEYWORDS (lower text)). }
  split; [| split; [| split]].
  - subst labels. rewrite categorize_comment_some, Hc. simpl. left.
  - subst labels. rewrite categorize_comment_some, Hc, Hs.
    destruct (any_in STYLE_KEYWORDS (lower text)),
             (any_in TESTING_KEYWORDS (lower text)); simpl;
      repeat (first [by left | right]).
  - eapply Forall_impl; [apply expand_row_shared |].
    intros e (_ & _ & _ & ->). exact Hlen.
  - rewrite <- !any_in_lower_spec, !not_true_iff_false.
    subst labels. rewrite categorize_comment_some, Hc, Hs.
    destruct (any_in STYLE_KEYWORDS (lower text)),
             (any_in TESTING_KEYWORDS (lower text)); simpl;
      split; try done; intros [? ?]; done.
Qed.

Lemma corrective_and_security_labels_witness :
  let text := "Fix the XSS" in
  "corrective" ∈ categorize_comment (Some text) ∧
  "security" ∈ categorize_comment (Some text) ∧
  Forall (fun e => e_has_multiple_categories e = true)
         (expand_row (classify_row 0
            {| row_pr_id := 1; row_id := None; row_body := Some text |})) ∧
  (categorize_comment (Some text) = ["corrective"; "security"] ↔
   ¬ (∃ k, k ∈ STYLE_KEYWORDS ∧ occurs_in k text) ∧
   ¬ (∃ k, k ∈ TESTING_KEYWORDS ∧ occurs_in k text)).
Proof.
  apply (corrective_and_security_labels "Fix the XSS" 0 1 None).
  - exists "fix". split.
    + unfold CORRECTIVE_KEYWORDS. do 2 right. left.
    + exists "", "Fix", " the XSS". split; reflexivity.
  - exists "xss". split.
    + unfold SECURITY_KEYWORDS. do 2 right. left.
    + exists "Fix the ", "XSS", "". split; reflexivity.
Defined.

(** C9, claim as stated, fails: a comment whose text is missing carries no
    category label, and the expansion step still emits one row for it. *)
Lemma expansion_missing_text_counterexample :
  let c := classify_row 0 {| row_pr_id := 1; row_id := None; row_body := None |} in
  length (cr_categories c) = 0%nat ∧ length (expand_row c) = 1%nat.
Proof. split; reflexivity. Qed.

(** C9, amended: for every classified comment that carries at least one
    category label (every comment with a text) the expansion step emits
    exactly one row per label, in label order; a comment that carries none
    (missing text) gets a single row of category "other". In both cases all
    rows of the comment carry its pull request, its comment id and its
    sentiment, and has_multiple_categories is true exactly when the comment
    has two or more labels. *)
Theorem expand_row_one_per_label (c : classified_row) :
  e_category <$> expand_row c =
    match cr_categories c with [] => ["other"] | _ :: _ => cr_categories c end
  ∧ length (expand_row c) = Nat.max 1 (length (cr_categories c))
  ∧ Forall (fun e =>
              e_pr_id e = row_pr_id (cr_row c) ∧
              e_comment_id e = comment_id c ∧
              e_sentiment e = cr_sentiment c ∧
              (e_has_multiple_categories e = true ↔
               (2 ≤ length (cr_categories c))%nat))
           (expand_row c)
  ∧ (∀ idx pr id text,
       cr_categories (classify_row idx
         {| row_pr_id := pr; row_id := id; row_body := Some text |}) ≠ []).
Proof.
  split; [| split; [| split]].
  - apply expand_row_categories.
  - rewrite <- (length_fmap e_category), expand_row_categories.
    destruct (cr_categories c); simpl; lia.
  - eapply Forall_impl; [apply expand_row_shared |].
    intros e (Hpr & Hid & Hsent & ->). repeat split; try done.
    + intros Hlt%Nat.ltb_lt. lia.
    + intros Hle. apply Nat.ltb_lt. lia.
  - intros idx pr id text. apply categorize_comment_some_nonempty.
Qed.

End ClassifierFacts.

(** ** Reviewer type *)

Section AttributionFacts.
Import Text Preprocess.

Lemma record_group_lookup (d : gmap Z string) (k : Z) (logins : list string) (pr : Z) :
  record_group d (k, logins) !! pr =
  if decide (pr = k) then Some (group_label logins (d !! pr)) else d !! pr.
Proof.
  unfold record_group, group_label, setdefault. simpl.
  destruct (existsb is_bot_login logins).
  - rewrite lookup_insert. repeat case_decide; congruence.
  - case_decide as E.
    + subst k. destruct (d !! pr) eqn:Hd; simpl; [done |].
      by rewrite lookup_insert_eq.
    + destruct (d !! k) eqn:Hd; [done |]. by rewrite lookup_insert_ne.
Qed.

Lemma foldl_record_group_absent (gs : list (Z * list string)) (d : gmap Z string) (pr : Z) :
  pr ∉ gs.*1 → foldl record_group d gs !! pr = d !! pr.
Proof.
  revert d. induction gs as [|[k ls] gs IH]; intros d Hnot; simpl; [done |].
  rewrite fmap_cons, not_elem_of_cons in Hnot. destruct Hnot as [Hne Hnot].
  rewrite IH by done. rewrite record_group_lookup. by case_decide.
Qed.

Lemma foldl_record_group_present
    (gs : list (Z * list string)) (d : gmap Z string) (pr : Z) (logins : list string) :
  NoDup gs.*1 → (pr, logins) ∈ gs →
  foldl record_group d gs !! pr = Some (group_label logins (d !! pr)).
Proof.
  revert d. induction gs as [|[k ls] gs IH]; intros d Hnd Hin; simpl.
  - by apply elem_of_nil in Hin.
  - rewrite fmap_cons in Hnd. apply NoDup_cons in Hnd as [Hk Hnd].
    apply elem_of_cons in Hin as [Heq | Hin].
    + injection Heq as <- <-. rewrite foldl_record_group_absent by done.
      rewrite record_group_lookup. by case_decide.
    + rewrite IH by done. rewrite record_group_lookup.
      case_decide as E; [| done].
      subst k. exfalso. apply Hk. apply list_elem_of_fmap. by exists (pr, logins).
Qed.

Lemma elem_of_group_keys (rows : list activity_row) (k : Z) :
  k ∈ group_keys rows ↔ ∃ r, r ∈ rows ∧ a_pr_id r = Some k.
Proof.
  unfold group_keys. rewrite merge_sort_Permutation, elem_of_remove_dups.
  by rewrite list_elem_of_omap.
Qed.

Lemma NoDup_group_keys (rows : list activity_row) : NoDup (group_keys rows).
Proof.
  unfold group_keys. rewrite merge_sort_Permutation. apply NoDup_remove_dups.
Qed.

Lemma elem_of_group_logins (rows : list activity_row) (k : Z) (l : string) :
  l ∈ group_logins k rows ↔
  ∃ r, r ∈ rows ∧ a_pr_id r = Some k ∧ l = fillna_login (a_login r).
Proof.
  unfold group_logins. rewrite list_elem_of_fmap. split.
  - intros (r & -> & Hr). apply list_elem_of_filter in Hr as [Hk Hr]. by exists r.
  - intros (r & Hr & Hk & ->). exists r. split; [done |].
    by apply list_elem_of_filter.
Qed.

Lemma group_logins_nil (rows : list activity_row) (k : Z) :
  group_logins k rows = [] ↔ k ∉ group_keys rows.
Proof.
  rewrite elem_of_group_keys. split.
  - intros Hnil (r & Hr & Hk).
    assert (fillna_login (a_login r) ∈ group_logins k rows) as Hin
      by (apply elem_of_group_logins; by exists r).
    rewrite Hnil in Hin. by apply elem_of_nil in Hin.
  - intros Hnone. destruct (group_logins k rows) as [|l ls] eqn:E; [done |].
    exfalso. apply Hnone.
    assert (l ∈ group_logins k rows) as Hin by (rewrite E; left).
    apply elem_of_group_logins in Hin as (r & Hr & Hk & _). by exists r.
Qed.

(** Effect of one analysis block on the entry of one PR. *)
Lemma analyse_lookup (src : source) (d : gmap Z string) (pr : Z) :
  analyse src d !! pr =
  match source_logins src pr with
  | [] => d !! pr
  | _ :: _ => Some (group_label (source_logins src pr) (d !! pr))
  end.
Proof.
  destruct src as [rows|]; simpl; [| done].
  destruct (decide (pr ∈ group_keys rows)) as [Hin | Hnot].
  - rewrite (foldl_record_group_present _ _ pr (group_logins pr rows)).
    + destruct (group_logins pr rows) eqn:E; [| done].
      by apply group_logins_nil in E.
    + unfold grouped. rewrite <- list_fmap_compose. simpl.
      rewrite list_fmap_id. apply NoDup_group_keys.
    + unfold grouped. apply list_elem_of_fmap. by exists pr.
  - rewrite foldl_record_group_absent.
    + apply group_logins_nil in Hnot. by rewrite Hnot.
    + unfold grouped. rewrite <- list_fmap_compose. simpl.
      by rewrite list_fmap_id.
Qed.

Lemma is_bot_login_spec (l : string) :
  is_bot_login l = true ↔ ∃ k, k ∈ BOT_KEYWORDS ∧ occurs_in k l.
Proof. apply any_in_lower_spec. Qed.

(** The entry after two blocks run one after the other on the empty
    dictionary. *)
Lemma analyse_twice_lookup (first second : source) (pr : Z) :
  analyse second (analyse first ∅) !! pr =
  let ids := (source_logins first pr ++ source_logins second pr) in
  match ids with
  | [] => None
  | _ :: _ => Some (if existsb is_bot_login ids then "bot" else "human")
  end.
Proof.
  rewrite !analyse_lookup, lookup_empty. unfold group_label. cbv zeta.
  rewrite existsb_app.
  destruct (source_logins first pr) as [|a la] eqn:Ea;
    destruct (source_logins second pr) as [|b lb] eqn:Eb;
    simpl;
    repeat (match goal with
            | |- context [is_bot_login ?x] => destruct (is_bot_login x)
            | |- context [existsb is_bot_login ?l] =>
                is_var l; destruct (existsb is_bot_login l)
            end; simpl); reflexivity.
Qed.

Lemma elem_of_source_logins (src : source) (pr : Z) (l : string) :
  l ∈ source_logins src pr ↔
  ∃ r, r ∈ source_rows src ∧ a_pr_id r = Some pr ∧ l = fillna_login (a_login r).
Proof.
  destruct src as [rows|]; simpl.
  - apply elem_of_group_logins.
  - split; [intros H; by apply elem_of_nil in H |].
    intros (r & H & _). by apply elem_of_nil in H.
Qed.

Lemma elem_of_gathered_logins (pr_reviews pr_comments : source) (pr : Z) (l : string) :
  l ∈ (source_logins pr_reviews pr ++ source_logins pr_comments pr) ↔
  ∃ r, r ∈ (source_rows pr_reviews ++ source_rows pr_comments) ∧
       a_pr_id r = Some pr ∧ l = fillna_login (a_login r).
Proof.
  rewrite elem_of_app, !elem_of_source_logins. split.
  - intros [(r & Hr & H) | (r & Hr & H)]; exists r; rewrite elem_of_app; auto.
  - intros (r & [Hr | Hr]%elem_of_app & H); [left | right]; by exists r.
Qed.

Lemma reviewer_type_unfold (pr_reviews pr_comments : source) (pr : Z) :
  reviewer_type pr_reviews pr_comments pr =
  let ids := (source_logins pr_reviews pr ++ source_logins pr_comments pr) in
  if existsb is_bot_login ids then "bot"
  else match ids with [] => "none" | _ :: _ => "human" end.
Proof.
  unfold reviewer_type, map_reviewer_type, reviewer_type_map.
  rewrite analyse_twice_lookup. cbv zeta.
  destruct (source_logins pr_reviews pr ++ source_logins pr_comments pr)
    as [|a ids]; [done |].
  cbn [default]. by destruct (existsb is_bot_login (a :: ids)).
Qed.

(** C4: the reviewer type of a PR is "bot" when some login gathered for it
    from the reviews or the comments holds a bot keyword (case ignored),
    whoever else took part; otherwise "human" when at least one login was
    gathered from either source; otherwise "none". Running the comments
    block before the reviews block builds the same dictionary, so a "bot"
    entry is never replaced by "human". *)
Theorem reviewer_type_sticky_bot (pr_reviews pr_comments : source) (pr : Z) :
  let ids := (source_logins pr_reviews pr ++ source_logins pr_comments pr) in
  reviewer_type pr_reviews pr_comments pr =
    (if existsb is_bot_login ids then "bot"
     else match ids with [] => "none" | _ :: _ => "human" end)
  ∧ (existsb is_bot_login ids = true ↔
     ∃ l k, l ∈ ids ∧ k ∈ BOT_KEYWORDS ∧ occurs_in k l)
  ∧ (∀ l, l ∈ ids ↔
          ∃ r, r ∈ (source_rows pr_reviews ++ source_rows pr_comments) ∧
               a_pr_id r = Some pr ∧ l = fillna_login (a_login r))
  ∧ analyse pr_reviews (analyse pr_comments ∅) =
    reviewer_type_map pr_reviews pr_comments.
Proof.
  intros ids. split; [| split; [| split]].
  - apply reviewer_type_unfold.
  - rewrite existsb_exists. split.
    + intros (l & Hl & Hbot). apply is_bot_login_spec in Hbot as (k & Hk & Hocc).
      exists l, k. by rewrite list_elem_of_In.
    + intros (l & k & Hl & Hk & Hocc). exists l. rewrite <- list_elem_of_In.
      split; [done |]. apply is_bot_login_spec. by exists k.
  - apply elem_of_gathered_logins.
  - unfold reviewer_type_map. apply map_eq. intros i.
    rewrite !analyse_twice_lookup. cbv zeta. rewrite !existsb_app.
    destruct (source_logins pr_reviews i) as [|a la],
             (source_logins pr_comments i) as [|b lb]; simpl;
      rewrite ?orb_false_r; try done.
    destruct (is_bot_login a), (is_bot_login b),
             (existsb is_bot_login la), (existsb is_bot_login lb); done.
Qed.

Example reviewer_type_bot_among_humans :
  reviewer_type
    (Some [ {| a_pr_id := Some 5; a_login := Some "alice" |};
            {| a_pr_id := Some 5; a_login := Some "Copilot-bot" |} ])
    (Some [ {| a_pr_id := Some 5; a_login := Some "bob" |} ]) 5 = "bot".
Proof. reflexivity. Qed.

Example reviewer_type_no_activity :
  reviewer_type (Some []) (Some []) 5 = "none" ∧ reviewer_type None None 5 = "none".
Proof. split; reflexivity. Qed.

Lemma elem_of_frame_source_rows
    (candidates : list string) (f : RawFrames.raw_frame) (r : activity_row) :
  r ∈ source_rows (RawFrames.frame_source candidates f) ↔
  ∃ link login raw,
    Columns.pr_id_col (RawFrames.frame_columns f) = Some link ∧
    Columns._pick_login_col (RawFrames.frame_columns f) candidates = Some login ∧
    raw ∈ RawFrames.frame_rows f ∧ r = RawFrames.read_row link login raw.
Proof.
  unfold RawFrames.frame_source.
  destruct (Columns.pr_id_col (RawFrames.frame_columns f)) as [link|];
    [destruct (Columns._pick_login_col (RawFrames.frame_columns f) candidates)
       as [login|] |]; simpl.
  - rewrite list_elem_of_fmap. split.
    + intros (raw & -> & Hraw). by exists link, login, raw.
    + intros (? & ? & raw & [= <-] & [= <-] & Hraw & ->). by exists raw.
  - rewrite elem_of_nil. split; [done | by intros (? & ? & ? & _ & H & _)].
  - rewrite elem_of_nil. split; [done | by intros (? & ? & ? & H & _)].
Qed.

(** C10, claim as stated, fails: the reviews frame names its login column
    "user", which is not among the candidates for reviews, so the frame is
    skipped; PR 5 has a review row and no comment, and its reviewer type is
    "none". *)
Lemma reviews_frame_skipped_counterexample :
  let pr_reviews :=
    {| RawFrames.frame_columns := ["pr_id"; "user"; "state"];
       RawFrames.frame_rows :=
         [ {| RawFrames.ints := {[ "pr_id" := 5 ]};
              RawFrames.strs := {[ "user" := "alice" ]} |} ] |} in
  let pr_comments :=
    {| RawFrames.frame_columns := ["pr_id"; "user"; "body"];
       RawFrames.frame_rows := [] |} in
  (∃ raw, raw ∈ RawFrames.frame_rows pr_reviews ∧
          RawFrames.ints raw !! "pr_id" = Some 5)
  ∧ RawFrames.frame_source RawFrames.reviews_login_candidates pr_reviews = None
  ∧ RawFrames.frame_reviewer_type pr_reviews pr_comments 5 = "none".
Proof.
  split; [| split; reflexivity].
  eexists. split; [left | reflexivity].
Qed.

(** C10, amended: the rows that count are those of the frames the script
    analyses, a frame being analysed when its link column and its login
    column are both resolved. A PR with at least one such row is never
    labelled "none": it is "bot" exactly when the login of one of its rows,
    a missing login read as the empty string, holds a bot keyword (case
    ignored), and "human" otherwise, in particular when all its logins are
    missing. "none" is the label of exactly the PRs without a row in an
    analysed frame. *)
Theorem reviewer_type_of_active_pr (pr_reviews pr_comments : RawFrames.raw_frame) (pr : Z) :
  let rows :=
    source_rows (RawFrames.frame_source RawFrames.reviews_login_candidates pr_reviews) ++
    source_rows (RawFrames.frame_source RawFrames.comments_login_candidates pr_comments) in
  let active := ∃ r, r ∈ rows ∧ a_pr_id r = Some pr in
  let bot_login := ∃ r k, r ∈ rows ∧ a_pr_id r = Some pr ∧ k ∈ BOT_KEYWORDS ∧
                          occurs_in k (fillna_login (a_login r)) in
  (RawFrames.frame_reviewer_type pr_reviews pr_comments pr = "none" ↔ ¬ active)
  ∧ (RawFrames.frame_reviewer_type pr_reviews pr_comments pr = "bot" ↔ bot_login)
  ∧ (RawFrames.frame_reviewer_type pr_reviews pr_comments pr = "human" ↔
     active ∧ ¬ bot_login)
  ∧ (active →
     (∀ r, r ∈ rows → a_pr_id r = Some pr → a_login r = None) →
     RawFrames.frame_reviewer_type pr_reviews pr_comments pr = "human")
  ∧ (∀ candidates f r,
       r ∈ source_rows (RawFrames.frame_source candidates f) ↔
       ∃ link login raw,
         Columns.pr_id_col (RawFrames.frame_columns f) = Some link ∧
         Columns._pick_login_col (RawFrames.frame_columns f) candidates = Some login ∧
         raw ∈ RawFrames.frame_rows f ∧ r = RawFrames.read_row link login raw).
Proof.
  intros rows active bot_login. unfold RawFrames.frame_reviewer_type.
  set (reviews := RawFrames.frame_source RawFrames.reviews_login_candidates pr_reviews) in *.
  set (comments := RawFrames.frame_source RawFrames.comments_login_candidates pr_comments) in *.
  pose proof (reviewer_type_unfold reviews comments pr) as Hlabel.
  pose proof (elem_of_gathered_logins reviews comments pr) as Hids.
  cbv zeta in Hlabel.
  set (ids := source_logins reviews pr ++ source_logins comments pr) in *.
  assert (Hactive : active ↔ ids ≠ []).
  { subst active. split.
    - intros (r & Hr & Hpr) Hnil.
      assert (fillna_login (a_login r) ∈ ids) as Hin by (apply Hids; by exists r).
      rewrite Hnil in Hin. by apply elem_of_nil in Hin.
    - intros Hne. destruct ids as [|l ls] eqn:E; [done |].
      assert (l ∈ l :: ls) as Hin by left.
      apply Hids in Hin as (r & Hr & Hpr & _). by exists r. }
  assert (Hbot : bot_login ↔ existsb is_bot_login ids = true).
  { subst bot_login. rewrite existsb_exists. split.
    - intros (r & k & Hr & Hpr & Hk & Hocc). exists (fillna_login (a_login r)).
      split.
      + apply list_elem_of_In, Hids. by exists r.
      + apply is_bot_login_spec. by exists k.
    - intros (l & Hl & Hb). apply list_elem_of_In, Hids in Hl as (r & Hr & Hpr & ->).
      apply is_bot_login_spec in Hb as (k & Hk & Hocc). by exists r, k. }
  assert (Hnil : existsb is_bot_login ids = true → ids ≠ [])
    by (intros Hb ->; discriminate Hb).
  split; [| split; [| split; [| split]]].
  - rewrite Hactive, Hlabel. destruct (existsb is_bot_login ids) eqn:E.
    + split; [discriminate | intros Hn; exfalso; apply Hn; auto].
    + destruct ids.
      * split; [intros _ Hne; by apply Hne | done].
      * split; [discriminate | intros Hn; exfalso; by apply Hn].
  - rewrite Hbot, Hlabel. destruct (existsb is_bot_login ids); [done |].
    destruct ids; split; discriminate.
  - rewrite Hactive, Hbot, Hlabel. destruct (existsb is_bot_login ids) eqn:E.
    + split; [discriminate | intros [_ Hn]; exfalso; by apply Hn].
    + destruct ids; (split; [try done | try done]).
      intros [Hn _]. exfalso. by apply Hn.
  - intros Hact Hmissing. rewrite Hlabel.
    destruct (existsb is_bot_login ids) eqn:E.
    + assert (Hb' : bot_login) by (by apply Hbot).
      destruct Hb' as (r & k & Hr & Hpr & Hk & Hocc).
      rewrite (Hmissing r Hr Hpr) in Hocc.
      assert (is_bot_login "" = true) as Hb by (apply is_bot_login_spec; by exists k).
      discriminate Hb.
    + apply Hactive in Hact. by destruct ids.
  - apply elem_of_frame_source_rows.
Qed.

Example reviewer_type_missing_logins :
  let pr_reviews :=
    {| RawFrames.frame_columns := ["pr_id"; "author_login"];
       RawFrames.frame_rows :=
         [ {| RawFrames.ints := {[ "pr_id" := 5 ]}; RawFrames.strs := ∅ |} ] |} in
  let pr_comments :=
    {| RawFrames.frame_columns := ["pr_id"; "user"];
       RawFrames.frame_rows :=
         [ {| RawFrames.ints := {[ "pr_id" := 6 ]};
              RawFrames.strs := {[ "user" := "Claude[bot]" ]} |} ] |} in
  RawFrames.frame_reviewer_type pr_reviews pr_comments 5 = "human" ∧
  RawFrames.frame_reviewer_type pr_reviews pr_comments 6 = "bot" ∧
  RawFrames.frame_reviewer_type pr_reviews pr_comments 7 = "none".
Proof. repeat split; reflexivity. Qed.

End AttributionFacts.

(** ** Cohorts and the rows of [results] *)

Section CohortFacts.
Import Rq3.

Variable col : pr_row -> option Z.

Lemma select_unselected_permutation (df : list pr_row) :
  (select_eq col 1 df ++ select_eq col 0 df ++ unselected col df) ≡ₚ df.
Proof.
  unfold select_eq, unselected. induction df as [|r df IH]; [done |].
  rewrite !filter_cons.
  etrans; [| apply Permutation_skip, IH].
  destruct (decide (col r = Some 1)) as [E1 | N1].
  - rewrite decide_False by congruence.
    by rewrite decide_False by (intros [? ?]; congruence).
  - destruct (decide (col r = Some 0)) as [E0 | N0].
    + rewrite decide_False by (intros [? ?]; congruence).
      simpl. by rewrite <- Permutation_middle.
    + rewrite decide_True by done.
      by rewrite app_assoc, <- Permutation_middle, <- app_assoc.
Qed.

Lemma elem_of_select_eq (v : Z) (df : list pr_row) (r : pr_row) :
  r ∈ select_eq col v df ↔ col r = Some v ∧ r ∈ df.
Proof. unfold select_eq. by rewrite list_elem_of_filter. Qed.

Lemma elem_of_unselected (df : list pr_row) (r : pr_row) :
  r ∈ unselected col df ↔ (col r ≠ Some 1 ∧ col r ≠ Some 0) ∧ r ∈ df.
Proof. unfold unselected. by rewrite list_elem_of_filter. Qed.

(** C5: the rows with value 1, the rows with value 0 and the rows left over
    (value missing or another value) split the input: their sizes add up to
    the size of the input, together they are the input rearranged (no row
    duplicated or dropped), no row belongs to two of them, and a row whose
    value is missing is in neither cohort. *)
Theorem cohort_split_partition (df : list pr_row) :
  let cohort_true := select_eq col 1 df in
  let cohort_false := select_eq col 0 df in
  let excluded := unselected col df in
  (length cohort_true + length cohort_false + length excluded = length df)%nat
  ∧ (cohort_true ++ cohort_false ++ excluded) ≡ₚ df
  ∧ (∀ r, (¬ (r ∈ cohort_true ∧ r ∈ cohort_false))
          ∧ (¬ (r ∈ cohort_true ∧ r ∈ excluded))
          ∧ (¬ (r ∈ cohort_false ∧ r ∈ excluded)))
  ∧ (∀ r, r ∈ df → col r = None →
          (r ∉ cohort_true) ∧ (r ∉ cohort_false) ∧ r ∈ excluded).
Proof.
  intros cohort_true cohort_false excluded.
  split; [| split; [| split]].
  - rewrite <- (Permutation_length (select_unselected_permutation df)).
    rewrite !length_app. subst cohort_true cohort_false excluded. lia.
  - apply select_unselected_permutation.
  - intros r. subst cohort_true cohort_false excluded.
    rewrite !elem_of_select_eq, elem_of_unselected.
    repeat split; intros [[H1 _] [H2 _]]; [congruence | |];
      destruct H2 as [H2 H3]; congruence.
  - intros r Hr Hnone. subst cohort_true cohort_false excluded.
    rewrite !elem_of_select_eq, elem_of_unselected, Hnone.
    repeat split; try done; intros [H _]; discriminate.
Qed.

End CohortFacts.

Example closed_open_cohorts_split :
  let df :=
    [ {| Rq3.pr_id := 1; Rq3.closed_loop := Some 1; Rq3.merged := Some 1;
         Rq3.review_duration_hours := None; Rq3.n_comments := None |};
      {| Rq3.pr_id := 2; Rq3.closed_loop := None; Rq3.merged := Some 0;
         Rq3.review_duration_hours := None; Rq3.n_comments := None |};
      {| Rq3.pr_id := 3; Rq3.closed_loop := Some 0; Rq3.merged := Some 0;
         Rq3.review_duration_hours := None; Rq3.n_comments := None |} ] in
  Rq3.pr_id <$> Rq3.closed_loop_prs df = [1] ∧
  Rq3.pr_id <$> Rq3.open_loop_prs df = [3] ∧
  Rq3.pr_id <$> Rq3.unselected Rq3.closed_loop df = [2].
Proof. repeat split; reflexivity. Qed.

Section ResultFacts.
Import Rq3.

Lemma elem_of_describe (metric group : string) (values : list Q) (row : result_row) :
  row ∈ describe metric group values ↔
  row = Descriptive metric group values (length values) ∧ values ≠ [].
Proof.
  unfold describe. destruct values as [|v vs]; simpl.
  - rewrite elem_of_nil. split; [done | by intros [_ H]].
  - rewrite list_elem_of_singleton. split; [by intros -> | by intros [-> _]].
Qed.

Lemma elem_of_rank_sum (metric : string) (x y : list Q) (row : result_row) :
  row ∈ rank_sum metric x y ↔ row = RankSum metric x y ∧ x ≠ [] ∧ y ≠ [].
Proof.
  unfold rank_sum. destruct x as [|a x], y as [|b y]; simpl;
    rewrite ?elem_of_nil, ?list_elem_of_singleton;
    (split; [try done; by intros -> | intros (H & Hx & Hy); done]).
Qed.

Lemma elem_of_chi_square (table : crosstab) (row : result_row) :
  row ∈ chi_square table ↔ row = ChiSquare table ∧ (0 < ct_size table)%nat.
Proof.
  unfold chi_square. destruct (0 <? ct_size table)%nat eqn:E.
  - apply Nat.ltb_lt in E. rewrite list_elem_of_singleton.
    split; [by intros -> | by intros [-> _]].
  - apply Nat.ltb_ge in E. rewrite elem_of_nil. split; [done |]. lia.
Qed.

(** Every row of [results], by the [append] call that put it there. *)
Lemma elem_of_results (rq3_data : list pr_row) (row : result_row) :
  row ∈ results rq3_data ↔
    row = Proportion (length (closed_loop_prs rq3_data))
                     (length (open_loop_prs rq3_data)) (length rq3_data)
  ∨ row ∈ describe "review_duration_hours" "closed-loop" (closed_loop_duration rq3_data)
  ∨ row ∈ describe "review_duration_hours" "open-loop" (open_loop_duration rq3_data)
  ∨ row = MergeRate "closed-loop" (length (closed_loop_prs rq3_data))
                    (merged <$> closed_loop_prs rq3_data)
  ∨ row = MergeRate "open-loop" (length (open_loop_prs rq3_data))
                    (merged <$> open_loop_prs rq3_data)
  ∨ row ∈ describe "n_comments" "closed-loop" (closed_loop_comments rq3_data)
  ∨ row ∈ describe "n_comments" "open-loop" (open_loop_comments rq3_data)
  ∨ row ∈ rank_sum "review_duration_hours"
                   (closed_loop_duration rq3_data) (open_loop_duration rq3_data)
  ∨ row ∈ chi_square (contingency_table rq3_data)
  ∨ row ∈ rank_sum "n_comments"
                   (closed_loop_comments rq3_data) (open_loop_comments rq3_data).
Proof.
  unfold results.
  rewrite !elem_of_app, !elem_of_cons, elem_of_nil. tauto.
Qed.

Lemma sorted_unique_nil (l : list Z) : sorted_unique l = [] ↔ l = [].
Proof.
  unfold sorted_unique. split.
  - intros H. destruct l as [|x l]; [done |]. exfalso.
    assert (x ∈ merge_sort Z.le (remove_dups (x :: l))) as Hin.
    { rewrite merge_sort_Permutation, elem_of_remove_dups. left. }
    rewrite H in Hin. by apply elem_of_nil in Hin.
  - by intros ->.
Qed.

Lemma observed_pairs_cons (r : pr_row) (df : list pr_row) :
  observed_pairs (closed_loop <$> (r :: df)) (merged <$> (r :: df)) =
  match closed_loop r, merged r with
  | Some i, Some j => [(i, j)]
  | _, _ => []
  end ++ observed_pairs (closed_loop <$> df) (merged <$> df).
Proof.
  unfold observed_pairs. simpl.
  by destruct (closed_loop r), (merged r).
Qed.

Lemma observed_pairs_nil (df : list pr_row) :
  observed_pairs (closed_loop <$> df) (merged <$> df) = [] ↔
  ¬ ∃ r, r ∈ df ∧ is_Some (closed_loop r) ∧ is_Some (merged r).
Proof.
  induction df as [|r df IH].
  - split; [| done]. intros _ (r & Hr & _). by apply elem_of_nil in Hr.
  - rewrite observed_pairs_cons. split.
    + intros H (r' & Hr' & [i Hi] & [j Hj]).
      apply elem_of_cons in Hr' as [-> | Hr'].
      * rewrite Hi, Hj in H. discriminate H.
      * apply app_eq_nil in H as [_ H]. apply IH in H. apply H. by exists r'.
    + intros H. destruct (closed_loop r) as [i|] eqn:Ei, (merged r) as [j|] eqn:Ej;
        [exfalso; apply H; exists r; rewrite Ei, Ej; split; [left | by split] | ..];
        simpl; apply IH; intros (r' & Hr' & Hboth); apply H; exists r';
        (split; [by right | done]).
Qed.

Lemma contingency_table_size (df : list pr_row) :
  (0 < ct_size (contingency_table df))%nat ↔
  ∃ r, r ∈ df ∧ is_Some (closed_loop r) ∧ is_Some (merged r).
Proof.
  unfold contingency_table, pd_crosstab, ct_size. cbn [ct_index ct_columns].
  set (pairs := observed_pairs (closed_loop <$> df) (merged <$> df)).
  assert (Hsize : (0 < length (sorted_unique pairs.*1) * length (sorted_unique pairs.*2))%nat
                  ↔ pairs ≠ []).
  { destruct pairs as [|p ps] eqn:E.
    - simpl. split; [lia | done].
    - split; [done | intros _].
      assert (sorted_unique ((p :: ps).*1) ≠ []) as H1
        by (rewrite sorted_unique_nil; discriminate).
      assert (sorted_unique ((p :: ps).*2) ≠ []) as H2
        by (rewrite sorted_unique_nil; discriminate).
      destruct (sorted_unique ((p :: ps).*1)), (sorted_unique ((p :: ps).*2));
        simpl; try done; lia. }
  rewrite Hsize. subst pairs. rewrite observed_pairs_nil.
  split; [| by intros H Hn].
  intros Hnn. destruct (decide (Exists (fun r => is_Some (closed_loop r) ∧
                                                 is_Some (merged r)) df)) as [Hex | Hno].
  - apply Exists_exists in Hex. done.
  - exfalso. apply Hnn. intros Hex. apply Hno, Exists_exists. done.
Qed.

Lemma elem_of_dropna {A} (series : list (option A)) (x : A) :
  x ∈ dropna series ↔ Some x ∈ series.
Proof.
  unfold dropna. rewrite list_elem_of_omap. split.
  - intros (o & Ho & Heq). simpl in Heq. by subst o.
  - intros H. by exists (Some x).
Qed.

(** C6, claim as stated, fails: both PRs are open-loop, the closed-loop
    cohort is empty and the contingency table has a single row, yet its
    size is 2 and the chi-square row is appended to [results]. *)
Lemma chi_square_single_cohort_counterexample :
  let df :=
    [ {| pr_id := 1; closed_loop := Some 0; merged := Some 1;
         review_duration_hours := None; n_comments := None |};
      {| pr_id := 2; closed_loop := Some 0; merged := Some 0;
         review_duration_hours := None; n_comments := None |} ] in
  closed_loop_prs df = [] ∧
  results df =
    [ Proportion 0 2 2;
      MergeRate "closed-loop" 0 [];
      MergeRate "open-loop" 2 [Some 1; Some 0];
      ChiSquare {| ct_index := [0]; ct_columns := [0; 1];
                   ct_counts := [[1%nat; 1%nat]] |} ].
Proof. split; vm_compute; reflexivity. Qed.

(** C6, amended: the chi-square test is skipped, and no row is produced for
    it, exactly when the contingency table is empty, that is when no PR has
    both a closed_loop and a merged value; otherwise it is run on the table
    as it is, also when only one cohort has records. *)
Theorem chi_square_skipped_only_for_empty_table (rq3_data : list pr_row) :
  (∀ t, ChiSquare t ∈ results rq3_data ↔
        t = contingency_table rq3_data ∧ (0 < ct_size t)%nat)
  ∧ ((0 < ct_size (contingency_table rq3_data))%nat ↔
     ∃ r, r ∈ rq3_data ∧ is_Some (closed_loop r) ∧ is_Some (merged r)).
Proof.
  split; [| apply contingency_table_size].
  intros t. rewrite elem_of_results, !elem_of_describe, !elem_of_rank_sum,
    elem_of_chi_square.
  split.
  - intros [H | [[H _] | [[H _] | [H | [H | [[H _] | [[H _] | [[H _] | [H | [H _]]]]]]]]]];
      try discriminate H.
    destruct H as [H Hsize]. injection H as ->. done.
  - intros [-> Hsize]. do 8 right. left. done.
Qed.

(** C7, claim as stated, fails: the closed-loop cohort has one PR and no
    duration value, and [results] holds no descriptive row for it at all,
    neither with count 0 nor otherwise. *)
Lemma describe_empty_field_counterexample :
  let df :=
    [ {| pr_id := 1; closed_loop := Some 1; merged := Some 1;
         review_duration_hours := None; n_comments := None |} ] in
  closed_loop_duration df = [] ∧
  results df =
    [ Proportion 1 0 1;
      MergeRate "closed-loop" 1 [Some 1];
      MergeRate "open-loop" 0 [];
      ChiSquare {| ct_index := [1]; ct_columns := [1];
                   ct_counts := [[1%nat]] |} ].
Proof. split; vm_compute; reflexivity. Qed.

(** C7, amended: the values described are those of the cohort with the
    missing ones left out, and a descriptive row is emitted for a cohort
    and a field exactly when at least one value is left; its count is the
    number of these values. With no value left the row is omitted. *)
Theorem descriptive_row_needs_values
    (rq3_data : list pr_row) (metric group : string) (values : list Q) (count : nat) :
  (Descriptive metric group values count ∈ results rq3_data ↔
     values ≠ [] ∧ count = length values ∧
     (   (metric = "review_duration_hours" ∧ group = "closed-loop" ∧
          values = closed_loop_duration rq3_data)
       ∨ (metric = "review_duration_hours" ∧ group = "open-loop" ∧
          values = open_loop_duration rq3_data)
       ∨ (metric = "n_comments" ∧ group = "closed-loop" ∧
          values = closed_loop_comments rq3_data)
       ∨ (metric = "n_comments" ∧ group = "open-loop" ∧
          values = open_loop_comments rq3_data)))
  ∧ (∀ x, x ∈ closed_loop_duration rq3_data ↔
          Some x ∈ review_duration_hours <$> closed_loop_prs rq3_data)
  ∧ (∀ x, x ∈ open_loop_duration rq3_data ↔
          Some x ∈ review_duration_hours <$> open_loop_prs rq3_data).
Proof.
  split; [| split; intros x; apply elem_of_dropna].
  rewrite elem_of_results, !elem_of_describe, !elem_of_rank_sum, elem_of_chi_square.
  split.
  - intros [H | [[H Hne] | [[H Hne] | [H | [H | [[H Hne] | [[H Hne] | [[H _] | [[H _] | [H _]]]]]]]]]];
      try discriminate H; injection H as -> -> -> ->; repeat split; auto 10.
  - intros (Hne & -> & [(-> & -> & ->) | [(-> & -> & ->) | [(-> & -> & ->) | (-> & -> & ->)]]]).
    + right. left. done.
    + do 2 right. left. done.
    + do 5 right. left. done.
    + do 6 right. left. done.
Qed.

(** C8: the row holding the two-sided rank-sum test and Cliff's delta of a
    metric is in [results] exactly when both cohort samples of that metric
    are non-empty; when either sample is empty there is no such row. *)
Theorem rank_sum_needs_both_samples
    (rq3_data : list pr_row) (metric : string) (x y : list Q) :
  (RankSum metric x y ∈ results rq3_data ↔
     x ≠ [] ∧ y ≠ [] ∧
     (   (metric = "review_duration_hours" ∧
          x = closed_loop_duration rq3_data ∧ y = open_loop_duration rq3_data)
       ∨ (metric = "n_comments" ∧
          x = closed_loop_comments rq3_data ∧ y = open_loop_comments rq3_data)))
  ∧ (closed_loop_duration rq3_data = [] ∨ open_loop_duration rq3_data = [] →
     ∀ a b, RankSum "review_duration_hours" a b ∉ results rq3_data)
  ∧ (closed_loop_comments rq3_data = [] ∨ open_loop_comments rq3_data = [] →
     ∀ a b, RankSum "n_comments" a b ∉ results rq3_data).
Proof.
  assert (Hiff : ∀ m a b, RankSum m a b ∈ results rq3_data ↔
     a ≠ [] ∧ b ≠ [] ∧
     (   (m = "review_duration_hours" ∧
          a = closed_loop_duration rq3_data ∧ b = open_loop_duration rq3_data)
       ∨ (m = "n_comments" ∧
          a = closed_loop_comments rq3_data ∧ b = open_loop_comments rq3_data))).
  { intros m a b.
    rewrite elem_of_results, !elem_of_describe, !elem_of_rank_sum, elem_of_chi_square.
    split.
    - intros [H | [[H _] | [[H _] | [H | [H | [[H _] | [[H _] | [[H Hne] | [[H _] | [H Hne]]]]]]]]]];
        try discriminate H; injection H as -> -> ->; destruct Hne; auto 10.
    - intros (Ha & Hb & [(-> & -> & ->) | (-> & -> & ->)]).
      + do 7 right. left. done.
      + do 9 right. done. }
  split; [apply Hiff | split].
  - intros Hempty a b (Ha & Hb & [(_ & -> & ->) | (Hm & _)])%Hiff;
      [destruct Hempty; done | discriminate Hm].
  - intros Hempty a b (Ha & Hb & [(Hm & _) | (_ & -> & ->)])%Hiff;
      [discriminate Hm | destruct Hempty; done].
Qed.

Example rank_sum_both_present :
  let df :=
    [ {| pr_id := 1; closed_loop := Some 1; merged := Some 1;
         review_duration_hours := Some (2 # 1)%Q; n_comments := None |};
      {| pr_id := 2; closed_loop := Some 0; merged := Some 0;
         review_duration_hours := Some (10 # 1)%Q; n_comments := None |} ] in
  RankSum "review_duration_hours" [(2 # 1)%Q] [(10 # 1)%Q] ∈ results df.
Proof. vm_compute. do 5 right. left. Qed.

End ResultFacts.

(** * Further properties of the scripts *)

(** ** Keyword matching *)

Section MatchingFacts.
Import Text Rq2.

Lemma string_app_assoc (a b c : string) : (a +:+ b) +:+ c = a +:+ b +:+ c.
Proof.
  induction a as [|x a IH]; [done |].
  change (String x ((a +:+ b) +:+ c) = String x (a +:+ b +:+ c)). by f_equal.
Qed.

Lemma lower_ascii_idem (c : ascii) : lower_ascii (lower_ascii c) = lower_ascii c.
Proof. destruct c as [[] [] [] [] [] [] [] []]; reflexivity. Qed.

Lemma lower_idem (s : string) : lower (lower s) = lower s.
Proof.
  induction s as [|c s IH]; simpl; [done |].
  by rewrite lower_ascii_idem, IH.
Qed.

Lemma str_in_trans (a b s : string) :
  str_in a b = true → str_in b s = true → str_in a s = true.
Proof.
  rewrite !str_in_spec. intros (p1 & q1 & ->) (p2 & q2 & ->).
  exists (p2 +:+ p1), (q1 +:+ q2). by rewrite !string_app_assoc.
Qed.

Lemma str_in_context (k pre t post : string) :
  str_in k t = true → str_in k (pre +:+ t +:+ post) = true.
Proof.
  intros H. apply (str_in_trans k t); [done |].
  apply str_in_spec. by exists pre, post.
Qed.

Lemma any_in_context (ks : list string) (pre t post : string) :
  any_in ks t = true → any_in ks (pre +:+ t +:+ post) = true.
Proof.
  rewrite !any_in_spec. intros (k & Hk & H). exists k.
  split; [done |]. by apply str_in_context.
Qed.

(** A keyword that holds another keyword of the list never decides alone. *)
Lemma any_in_covered (ks ks' : list string) (s : string) :
  forallb (fun k => existsb (fun k' => str_in k' k) ks') ks = true →
  any_in ks s = true → any_in ks' s = true.
Proof.
  intros Hcov. rewrite !any_in_spec. intros (k & Hk & H).
  rewrite forallb_forall in Hcov.
  apply list_elem_of_In, Hcov, existsb_exists in Hk as (k' & Hk' & Hsub).
  exists k'. split; [by apply list_elem_of_In |]. by apply (str_in_trans k' k).
Qed.

Lemma any_in_same (ks ks' : list string) (s : string) :
  forallb (fun k => existsb (fun k' => str_in k' k) ks') ks = true →
  forallb (fun k' => existsb (fun k => str_in k k') ks) ks' = true →
  any_in ks s = any_in ks' s.
Proof.
  intros H1 H2. apply eq_true_iff_eq.
  split; by apply any_in_covered.
Qed.

Lemma count_present_context (ws : list string) (pre t post : string) :
  (count_present ws t ≤ count_present ws (pre +:+ t +:+ post))%nat.
Proof.
  unfold count_present. induction ws as [|w ws IH]; simpl; [done |].
  destruct (str_in w t) eqn:E.
  - rewrite (str_in_context _ pre _ post E). simpl. lia.
  - destruct (str_in w (pre +:+ t +:+ post)); simpl; lia.
Qed.

(** The four taxonomy labels of a text, by the check that adds each. *)
Lemma elem_of_categorize_comment (label text : string) :
  label ∈ categorize_comment (Some text) ↔
    (label = "corrective" ∧ any_in CORRECTIVE_KEYWORDS (lower text) = true)
  ∨ (label = "style" ∧ any_in STYLE_KEYWORDS (lower text) = true)
  ∨ (label = "security" ∧ any_in SECURITY_KEYWORDS (lower text) = true)
  ∨ (label = "testing" ∧ any_in TESTING_KEYWORDS (lower text) = true)
  ∨ (label = "other" ∧
     any_in CORRECTIVE_KEYWORDS (lower text) = false ∧
     any_in STYLE_KEYWORDS (lower text) = false ∧
     any_in SECURITY_KEYWORDS (lower text) = false ∧
     any_in TESTING_KEYWORDS (lower text) = false).
Proof.
  rewrite categorize_comment_some.
  destruct (any_in CORRECTIVE_KEYWORDS (lower text)),
           (any_in STYLE_KEYWORDS (lower text)),
           (any_in SECURITY_KEYWORDS (lower text)),
           (any_in TESTING_KEYWORDS (lower text)); simpl;
    rewrite ?elem_of_cons, ?elem_of_nil;
    (split; [intros H; repeat destruct H as [H | H]; subst; tauto
            | intros H; repeat destruct H as [H | H];
              destruct H as [-> H]; try discriminate H; try tauto;
              destruct H as (H1 & H2 & H3 & H4); discriminate ]).
Qed.

(** X1: classification ignores the case of letters: the text and its
    lowered form get the same categories and the same sentiment. *)
Theorem classification_ignores_case (text : string) :
  categorize_comment (Some (lower text)) = categorize_comment (Some text) ∧
  analyze_sentiment (Some (lower text)) = analyze_sentiment (Some text).
Proof.
  unfold categorize_comment, analyze_sentiment. by rewrite lower_idem.
Qed.

Lemma categorize_comment_shape (comment_text : option string) :
  categorize_comment comment_text = ["other"] ∨
  sublist (categorize_comment comment_text)
          ["corrective"; "style"; "security"; "testing"].
Proof.
  destruct comment_text as [text|]; [| right; apply sublist_nil_l].
  rewrite categorize_comment_some.
  destruct (any_in CORRECTIVE_KEYWORDS (lower text)),
           (any_in STYLE_KEYWORDS (lower text)),
           (any_in SECURITY_KEYWORDS (lower text)),
           (any_in TESTING_KEYWORDS (lower text)); simpl;
    first [ by left
          | right;
            repeat first [ apply sublist_nil
                         | apply sublist_skip
                         | apply sublist_cons ] ].
Qed.

Lemma categorize_comment_NoDup (comment_text : option string) :
  NoDup (categorize_comment comment_text).
Proof.
  destruct (categorize_comment_shape comment_text) as [-> | Hsub].
  - apply NoDup_singleton.
  - eapply sublist_NoDup; [| exact Hsub].
    apply (bool_decide_unpack _). by vm_compute.
Qed.

(** X2: the labels of a comment are either "other" alone or a selection
    of corrective, style, security, testing in this order, each at most
    once; "other" never stands beside another label, and a text gets it
    exactly when no keyword of the four lists occurs in it. *)
Theorem categorize_comment_labels (comment_text : option string) :
  let labels := categorize_comment comment_text in
  (labels = ["other"] ∨
   sublist labels ["corrective"; "style"; "security"; "testing"])
  ∧ NoDup labels
  ∧ (length labels ≤ 4)%nat
  ∧ ("other" ∈ labels ↔ labels = ["other"])
  ∧ (∀ text, comment_text = Some text →
       (labels = ["other"] ↔
        ¬ ∃ k, k ∈ CORRECTIVE_KEYWORDS ++ STYLE_KEYWORDS ++
                   SECURITY_KEYWORDS ++ TESTING_KEYWORDS ∧ occurs_in k text)).
Proof.
  intros labels. split; [| split; [| split; [| split]]].
  - apply categorize_comment_shape.
  - apply categorize_comment_NoDup.
  - destruct (categorize_comment_shape comment_text) as [H | H]; fold labels in H.
    + rewrite H. simpl. lia.
    + apply sublist_length in H. simpl in H. lia.
  - split; [| intros ->; left].
    destruct (categorize_comment_shape comment_text) as [H | H]; fold labels in H;
      [done |].
    intros Hin. eapply elem_of_sublist in Hin; [| exact H].
    apply (bool_decide_pack _) in Hin. by vm_compute in Hin.
  - intros text ->. subst labels. rewrite categorize_comment_some.
    split.
    + intros Hother (k & Hk & Hocc).
      rewrite !elem_of_app in Hk.
      assert (∀ ks, k ∈ ks → any_in ks (lower text) = true) as Hany
        by (intros ks Hks; apply any_in_lower_spec; by exists k).
      destruct Hk as [Hk | [Hk | [Hk | Hk]]]; apply Hany in Hk;
        rewrite Hk in Hother;
        repeat match type of Hother with
               | context [if ?b then _ else _] => destruct b
               end; discriminate Hother.
    + intros Hnone.
      assert (∀ ks, (∀ k, k ∈ ks → k ∈ CORRECTIVE_KEYWORDS ++ STYLE_KEYWORDS ++
                                        SECURITY_KEYWORDS ++ TESTING_KEYWORDS) →
                    any_in ks (lower text) = false) as Hfalse.
      { intros ks Hks. apply not_true_is_false. intros Hany.
        apply any_in_lower_spec in Hany as (k & Hk & Hocc).
        apply Hnone. exists k. split; [by apply Hks | done]. }
      rewrite !Hfalse; [done | ..]; intros k Hk; rewrite !elem_of_app; tauto.
Qed.

(** X3: keywords that hold another keyword of their list never change a
    result: "testing", "unit test", "should test", "missing test" and
    "test case" are covered by "test", "pylint" by "lint", "formatting" by
    "format", "authentication" and "authorization" by "auth", and
    "sql injection" by "injection". *)
Theorem redundant_keywords (s : string) :
  any_in TESTING_KEYWORDS s =
    any_in ["test"; "coverage"; "integration"; "mock"; "assert"; "scenario"] s
  ∧ any_in STYLE_KEYWORDS s =
    any_in ["style"; "format"; "indent"; "spacing"; "naming"; "convention";
            "lint"; "pep8"; "whitespace"; "semicolon"; "brace"] s
  ∧ any_in SECURITY_KEYWORDS s =
    any_in ["security"; "vulnerability"; "xss"; "csrf"; "auth"; "password";
            "token"; "secret"; "key"; "encrypt"; "hash"; "sanitize"; "escape";
            "injection"] s.
Proof. repeat split; by apply any_in_same. Qed.

(** X4: a text put inside a longer text keeps every taxonomy label it
    has, and none of the phrase counts of the sentiment goes down. *)
Theorem labels_kept_in_context (label pre text post : string) :
  label ∈ categorize_comment (Some text) →
  label ≠ "other" →
  label ∈ categorize_comment (Some (pre +:+ text +:+ post))
  ∧ (count_present positive_words (lower text)
     ≤ count_present positive_words (lower (pre +:+ text +:+ post)))%nat
  ∧ (count_present negative_words (lower text)
     ≤ count_present negative_words (lower (pre +:+ text +:+ post)))%nat.
Proof.
  intros Hin Hne. rewrite !lower_app.
  split; [| split; apply count_present_context].
  apply elem_of_categorize_comment. rewrite !lower_app.
  apply elem_of_categorize_comment in Hin
    as [[-> H] | [[-> H] | [[-> H] | [[-> H] | [-> _]]]]]; [.. | done];
    apply (any_in_context _ (lower pre) _ (lower post)) in H; tauto.
Qed.

Lemma labels_kept_in_context_witness :
  "security" ∈ categorize_comment (Some ("Please " +:+ "rotate the token" +:+ " today"))
  ∧ (count_present positive_words (lower "rotate the token")
     ≤ count_present positive_words
         (lower ("Please " +:+ "rotate the token" +:+ " today")))%nat
  ∧ (count_present negative_words (lower "rotate the token")
     ≤ count_present negative_words
         (lower ("Please " +:+ "rotate the token" +:+ " today")))%nat.
Proof.
  apply (labels_kept_in_context "security" "Please " "rotate the token" " today").
  - vm_compute. left.
  - discriminate.
Defined.

End MatchingFacts.

(** ** Group sizes *)

Section GroupFacts.
Context {A K : Type} `{EqDecision K}.
Implicit Types (f : A → K) (ks : list K) (l : list A).

Lemma sum_list_with_zero ks : sum_list_with (fun _ : K => 0%nat) ks = 0%nat.
Proof. induction ks as [|k ks IH]; simpl; [done | by rewrite IH]. Qed.

Lemma sum_list_with_indicator (a : K) ks :
  NoDup ks →
  sum_list_with (fun k => if decide (a = k) then 1%nat else 0%nat) ks =
  if decide (a ∈ ks) then 1%nat else 0%nat.
Proof.
  induction 1 as [|k ks Hk Hnd IH]; [done |].
  change (sum_list_with ?g (k :: ks)) with (g k + sum_list_with g ks)%nat.
  rewrite IH. cbv beta.
  destruct (decide (a ∈ ks)) as [Hin | Hnin], (decide (a = k)) as [Heq | Hne].
  - by subst a.
  - rewrite decide_True by (by right). done.
  - rewrite decide_True by (subst a; left). done.
  - rewrite decide_False; [done |]. rewrite elem_of_cons. tauto.
Qed.

Lemma sum_list_with_plus (g h : K → nat) ks :
  sum_list_with (fun k => (g k + h k)%nat) ks =
  (sum_list_with g ks + sum_list_with h ks)%nat.
Proof. induction ks as [|k ks IH]; simpl; [done | rewrite IH; lia]. Qed.

Lemma sum_list_with_cons (g : K → nat) (k : K) ks :
  sum_list_with g (k :: ks) = (g k + sum_list_with g ks)%nat.
Proof. done. Qed.

Lemma sum_group_sizes_cons f (x : A) l ks :
  sum_list_with (fun k => length (filter (fun y => f y = k) (x :: l))) ks =
  (sum_list_with (fun k => if decide (f x = k) then 1 else 0) ks +
   sum_list_with (fun k => length (filter (fun y => f y = k) l)) ks)%nat.
Proof.
  induction ks as [|k ks IH]; [done |].
  rewrite !sum_list_with_cons, IH, filter_cons.
  destruct (decide (f x = k)); simpl; lia.
Qed.

(** The sizes of the groups of a key add up to the size of the list, when
    every key of the list is listed once. *)
Lemma sum_group_sizes f ks l :
  NoDup ks → (∀ x, x ∈ l → f x ∈ ks) →
  sum_list_with (fun k => length (filter (fun x => f x = k) l)) ks = length l.
Proof.
  intros Hnd. induction l as [|x l IH]; intros Hcov.
  - apply sum_list_with_zero.
  - rewrite sum_group_sizes_cons, sum_list_with_indicator by done.
    rewrite decide_True by (apply Hcov; left).
    rewrite IH; [done |]. intros y Hy. apply Hcov. by right.
Qed.

Lemma group_size_positive f (k : K) l :
  (0 < length (filter (fun x => f x = k) l))%nat ↔ ∃ x, x ∈ l ∧ f x = k.
Proof.
  split.
  - intros Hpos. destruct (filter (fun x => f x = k) l) as [|x xs] eqn:E;
      [simpl in Hpos; lia |].
    assert (x ∈ filter (fun x => f x = k) l) as Hin by (rewrite E; left).
    apply list_elem_of_filter in Hin as [Hk Hin]. by exists x.
  - intros (x & Hx & Hk).
    assert (x ∈ filter (fun x => f x = k) l) as Hin
      by (by apply list_elem_of_filter).
    destruct (filter (fun x => f x = k) l); [by apply elem_of_nil in Hin |].
    simpl. lia.
Qed.

Lemma group_size_NoDup f (k : K) l :
  NoDup (f <$> l) → (length (filter (fun x => f x = k) l) ≤ 1)%nat.
Proof.
  induction l as [|x l IH]; [simpl; lia |].
  rewrite fmap_cons, NoDup_cons. intros [Hx Hnd].
  rewrite filter_cons. destruct (decide (f x = k)) as [Hk | Hk]; [| auto].
  destruct (decide (0 < length (filter (fun y => f y = k) l))%nat) as [Hpos | Hz].
  - exfalso. apply group_size_positive in Hpos as (y & Hy & Hyk).
    apply Hx. apply list_elem_of_fmap. exists y. split; [congruence | done].
  - simpl. lia.
Qed.

Lemma sum_list_fmap_with (g : K → nat) ks :
  sum_list (g <$> ks) = sum_list_with g ks.
Proof. induction ks as [|k ks IH]; csimpl; [done | by rewrite IH]. Qed.

End GroupFacts.

(** ** Statistics per category and per PR *)

Section StatsFacts.
Import Text Rq2 Rq2Stats.

Lemma expanded_rows_cons (idx : Z) (row : comment_row) (rq2_data : list (Z * comment_row)) :
  expanded_rows ((idx, row) :: rq2_data) =
  expand_row (classify_row idx row) ++ expanded_rows rq2_data.
Proof. done. Qed.

Lemma expand_row_classified_categories (idx : Z) (row : comment_row) :
  e_category <$> expand_row (classify_row idx row) = ["other"] ∨
  sublist (e_category <$> expand_row (classify_row idx row))
          ["corrective"; "style"; "security"; "testing"] ∧
  e_category <$> expand_row (classify_row idx row) ≠ [].
Proof.
  rewrite expand_row_categories. simpl.
  destruct (categorize_comment_shape (row_body row)) as [-> | Hsub]; [by left |].
  destruct (categorize_comment (row_body row)) as [|c cs]; [by left |].
  right. by split.
Qed.

Lemma expand_row_classified_length (idx : Z) (row : comment_row) :
  (1 ≤ length (expand_row (classify_row idx row)) ≤ 4)%nat.
Proof.
  rewrite <- (length_fmap e_category).
  destruct (expand_row_classified_categories idx row) as [-> | [Hsub Hne]].
  - simpl. lia.
  - apply sublist_length in Hsub. simpl in Hsub.
    destruct (e_category <$> expand_row (classify_row idx row)); [done |].
    simpl in *. lia.
Qed.

Lemma expand_row_classified_label (idx : Z) (row : comment_row) (e : expanded_row) :
  e ∈ expand_row (classify_row idx row) →
  e_category e ∈ ["corrective"; "style"; "security"; "testing"; "other"].
Proof.
  intros He.
  assert (e_category e ∈ e_category <$> expand_row (classify_row idx row)) as Hin
    by (apply list_elem_of_fmap; by exists e).
  destruct (expand_row_classified_categories idx row) as [Heq | [Hsub _]].
  - rewrite Heq in Hin. apply list_elem_of_singleton in Hin as ->.
    do 4 right. left.
  - eapply elem_of_sublist in Hin; [| exact Hsub].
    rewrite !elem_of_cons in *. tauto.
Qed.

Lemma expand_row_classified_group (idx : Z) (row : comment_row) (k : string * string) :
  (length (filter (fun e => group_key e = k) (expand_row (classify_row idx row))) ≤ 1)%nat.
Proof.
  apply (group_size_NoDup group_key).
  apply (NoDup_fmap_1 fst). rewrite <- list_fmap_compose.
  change (fst ∘ group_key) with e_category.
  rewrite expand_row_categories. simpl.
  pose proof (categorize_comment_NoDup (row_body row)) as Hnd.
  destruct (categorize_comment (row_body row)); [apply NoDup_singleton | done].
Qed.

Lemma analyze_sentiment_label (comment_text : option string) :
  analyze_sentiment comment_text ∈ ["positive"; "negative"; "neutral"].
Proof.
  unfold analyze_sentiment. destruct comment_text as [text|].
  - repeat match goal with
           | |- context [if ?b then _ else _] => destruct b
           end; rewrite !elem_of_cons; tauto.
  - do 2 right. left.
Qed.

Lemma expanded_rows_length (rq2_data : list (Z * comment_row)) :
  (length rq2_data ≤ length (expanded_rows rq2_data) ≤ 4 * length rq2_data)%nat.
Proof.
  induction rq2_data as [|[idx row] df IH]; [simpl; lia |].
  rewrite expanded_rows_cons, length_app.
  pose proof (expand_row_classified_length idx row). simpl. lia.
Qed.

Lemma expanded_rows_label (rq2_data : list (Z * comment_row)) (e : expanded_row) :
  e ∈ expanded_rows rq2_data →
  e_category e ∈ ["corrective"; "style"; "security"; "testing"; "other"].
Proof.
  induction rq2_data as [|[idx row] df IH]; [by intros H%elem_of_nil |].
  rewrite expanded_rows_cons, elem_of_app. intros [He | He]; [| auto].
  by eapply expand_row_classified_label.
Qed.

Lemma expanded_rows_sentiment (rq2_data : list (Z * comment_row)) (e : expanded_row) :
  e ∈ expanded_rows rq2_data →
  e_sentiment e ∈ ["positive"; "negative"; "neutral"].
Proof.
  induction rq2_data as [|[idx row] df IH]; [by intros H%elem_of_nil |].
  rewrite expanded_rows_cons, elem_of_app. intros [He | He]; [| auto].
  pose proof (expand_row_shared (classify_row idx row)) as Hall.
  rewrite Forall_forall in Hall. destruct (Hall e He) as (_ & _ & -> & _).
  apply analyze_sentiment_label.
Qed.

Lemma expanded_rows_group (rq2_data : list (Z * comment_row)) (k : string * string) :
  (length (filter (fun e => group_key e = k) (expanded_rows rq2_data))
   ≤ length rq2_data)%nat.
Proof.
  induction rq2_data as [|[idx row] df IH]; [done |].
  rewrite expanded_rows_cons, filter_app, length_app.
  pose proof (expand_row_classified_group idx row k). simpl. lia.
Qed.

Lemma key_le_total : Total key_le.
Proof.
  intros [a1 a2] [b1 b2]. unfold key_le, String.ltb. simpl.
  destruct (String.compare a1 b1) eqn:E.
  - apply String.compare_eq_iff in E as ->.
    destruct (String.leb_total a2 b2); auto.
  - by do 2 left.
  - right. left. rewrite String.compare_antisym, E. done.
Qed.

(** X5: every comment gives between one and four expanded rows. Without
    any comment the table of sentiment by category cannot be built
    (KeyError); otherwise it has exactly one line for every pair of
    category and sentiment that occurs, in key order, whose count is the
    number of expanded rows of that pair; the counts add up to the number
    of expanded rows, the categories are among the five labels, the
    sentiments among the three, and no count exceeds the number of
    comments. *)
Theorem sentiment_by_category_totals (rq2_data : list (Z * comment_row)) :
  let expanded_df := expanded_rows rq2_data in
  let size k := length (filter (fun e => (e_category e, e_sentiment e) = k) expanded_df) in
  (length rq2_data ≤ length expanded_df ≤ 4 * length rq2_data)%nat
  ∧ (sentiment_by_category expanded_df = None ↔ rq2_data = [])
  ∧ (∀ table, sentiment_by_category expanded_df = Some table →
       (∀ k n, (k, n) ∈ table ↔ n = size k ∧ (1 ≤ n)%nat)
       ∧ NoDup table.*1
       ∧ Sorted key_le table.*1
       ∧ sum_list table.*2 = length expanded_df
       ∧ (∀ k n, (k, n) ∈ table →
            k.1 ∈ ["corrective"; "style"; "security"; "testing"; "other"] ∧
            k.2 ∈ ["positive"; "negative"; "neutral"] ∧
            (n ≤ length rq2_data)%nat)).
Proof.
  intros expanded_df size.
  split; [apply expanded_rows_length | split].
  { pose proof (expanded_rows_length rq2_data) as Hlen. fold expanded_df in Hlen.
    unfold sentiment_by_category. destruct expanded_df, rq2_data; simpl in Hlen;
      split; try done; lia. }
  intros table Htable.
  set (keys := merge_sort key_le (remove_dups (group_key <$> expanded_df))).
  assert (Hlines : table = (fun k => (k, size k)) <$> keys).
  { unfold sentiment_by_category in Htable. destruct expanded_df; [done |].
    by injection Htable as <-. }
  clear Htable. subst table.
  assert (Hkeys : ∀ k, k ∈ keys ↔ ∃ e, e ∈ expanded_df ∧ group_key e = k).
  { intros k. subst keys.
    rewrite merge_sort_Permutation, elem_of_remove_dups, list_elem_of_fmap.
    split; intros (e & H1 & H2); exists e; by split. }
  assert (Hpos : ∀ k, k ∈ keys ↔ (1 ≤ size k)%nat).
  { intros k. rewrite Hkeys. symmetry. apply (group_size_positive group_key). }
  assert (Hnd : NoDup keys).
  { subst keys. rewrite merge_sort_Permutation. apply NoDup_remove_dups. }
  assert (Hfst : ((fun k => (k, size k)) <$> keys).*1 = keys).
  { rewrite <- list_fmap_compose. apply list_fmap_id. }
  split; [| split; [| split; [| split]]].
  - intros k n. rewrite list_elem_of_fmap. split.
    + intros (k' & [= -> ->] & Hk). split; [done | by apply Hpos].
    + intros [-> Hn]. exists k. split; [done | by apply Hpos].
  - by rewrite Hfst.
  - rewrite Hfst. subst keys. apply Sorted_merge_sort, key_le_total.
  - rewrite <- list_fmap_compose, sum_list_fmap_with. simpl.
    apply (sum_group_sizes group_key); [done |].
    intros e He. apply Hkeys. by exists e.
  - intros k n (k' & [= -> ->] & Hk)%list_elem_of_fmap.
    apply Hkeys in Hk as (e & He & <-). simpl. split; [| split].
    + by eapply expanded_rows_label.
    + by eapply expanded_rows_sentiment.
    + apply expanded_rows_group.
Qed.

(** X6: the table of comments per PR has exactly one line for every PR
    id that occurs in rq2_data, in increasing order of the id, and the
    count of a line is the number of rows of rq2_data with that PR id, at
    least one; the counts add up to the number of rows of rq2_data. *)
Theorem comments_per_pr_totals (rq2_data : list (Z * comment_row)) :
  let table := comments_per_pr rq2_data in
  let n_comments k := length (filter (fun ir => row_pr_id ir.2 = k) rq2_data) in
  (∀ k n, (k, n) ∈ table ↔ n = n_comments k ∧ (1 ≤ n)%nat)
  ∧ (∀ k, k ∈ table.*1 ↔ ∃ ir, ir ∈ rq2_data ∧ row_pr_id ir.2 = k)
  ∧ NoDup table.*1
  ∧ Sorted Z.le table.*1
  ∧ sum_list table.*2 = length rq2_data.
Proof.
  intros table n_comments.
  set (keys := Rq3.sorted_unique ((fun ir => row_pr_id ir.2) <$> rq2_data)).
  assert (Hkeys : ∀ k, k ∈ keys ↔ ∃ ir, ir ∈ rq2_data ∧ row_pr_id ir.2 = k).
  { intros k. subst keys. unfold Rq3.sorted_unique.
    rewrite merge_sort_Permutation, elem_of_remove_dups, list_elem_of_fmap.
    split; intros (e & H1 & H2); exists e; by split. }
  assert (Hpos : ∀ k, k ∈ keys ↔ (1 ≤ n_comments k)%nat).
  { intros k. rewrite Hkeys. symmetry.
    apply (group_size_positive (fun ir : Z * comment_row => row_pr_id ir.2)). }
  assert (Hnd : NoDup keys).
  { subst keys. unfold Rq3.sorted_unique.
    rewrite merge_sort_Permutation. apply NoDup_remove_dups. }
  assert (Htable : table = (fun k => (k, n_comments k)) <$> keys) by done.
  assert (Hfst : table.*1 = keys).
  { rewrite Htable, <- list_fmap_compose. apply list_fmap_id. }
  split; [| split; [| split; [| split]]].
  - intros k n. rewrite Htable, list_elem_of_fmap. split.
    + intros (k' & [= -> ->] & Hk). split; [done | by apply Hpos].
    + intros [-> Hn]. exists k. split; [done | by apply Hpos].
  - intros k. by rewrite Hfst.
  - by rewrite Hfst.
  - rewrite Hfst. subst keys. apply Sorted_merge_sort. apply _.
  - rewrite Htable, <- list_fmap_compose, sum_list_fmap_with. simpl.
    apply (sum_group_sizes (fun ir : Z * comment_row => row_pr_id ir.2)); [done |].
    intros ir Hir. apply Hkeys. by exists ir.
Qed.

End StatsFacts.

(** ** Column resolution *)

Section ColumnFacts.
Import Text Columns.

(** X7: [_pick_login_col] returns the first candidate that is a column:
    the name returned is a candidate and a column, no candidate before it
    is a column, and nothing is returned exactly when no candidate is a
    column. The link column is chosen by the same rule among "pr_id" and
    "pull_request_id". *)
Theorem pick_login_col_first_match (columns candidates : list string) :
  (∀ c, _pick_login_col columns candidates = Some c ↔
        ∃ before after, candidates = before ++ c :: after ∧
                        c ∈ columns ∧ ∀ b, b ∈ before → b ∉ columns)
  ∧ (_pick_login_col columns candidates = None ↔
     ∀ c, c ∈ candidates → c ∉ columns)
  ∧ pr_id_col columns = _pick_login_col columns ["pr_id"; "pull_request_id"].
Proof.
  split; [| split; [| done]].
  - induction candidates as [|a cands IH]; intros c; simpl.
    + split; [done |]. intros ([|? ?] & after & H & _); discriminate H.
    + case_bool_decide as Ha.
      * split.
        -- intros [= ->]. exists [], cands. repeat split; [done |].
           intros b Hb. by apply elem_of_nil in Hb.
        -- intros ([|b before] & after & Heq & Hc & Hbefore).
           ++ by injection Heq as ->.
           ++ injection Heq as Hab _. exfalso. apply (Hbefore b); [left | by subst b].
      * rewrite IH. split.
        -- intros (before & after & -> & Hc & Hbefore).
           exists (a :: before), after. repeat split; [done |].
           intros b [-> | Hb]%elem_of_cons; auto.
        -- intros ([|b before] & after & Heq & Hc & Hbefore).
           ++ injection Heq as -> _. done.
           ++ injection Heq as -> ->. exists before, after.
              repeat split; [done |]. intros b' Hb'. apply Hbefore. by right.
  - induction candidates as [|a cands IH]; simpl.
    + split; [| done]. intros _ c Hc. by apply elem_of_nil in Hc.
    + case_bool_decide as Ha.
      * split; [done |]. intros H. exfalso. apply (H a); [left | done].
      * rewrite IH. split.
        -- intros H c [-> | Hc]%elem_of_cons; auto.
        -- intros H c Hc. apply H. by right.
Qed.

Lemma comment_column_elem (columns : list string) (c : string) :
  comment_column columns = Some c → c ∈ columns.
Proof.
  unfold comment_column. case_bool_decide as Hbody; [by intros [= <-] |].
  destruct (existsb comment_like columns); [| done].
  intros Hhead. apply head_Some_elem_of in Hhead.
  apply list_elem_of_In, filter_In in Hhead as [Hin _].
  by apply list_elem_of_In.
Qed.

Lemma comment_like_spec (name : string) :
  comment_like name = true ↔
  ∃ k, k ∈ ["comment"; "text"; "content"] ∧ occurs_in k name.
Proof. apply any_in_lower_spec. Qed.

Lemma head_filter_first {A} (p : A → bool) (l : list A) (c : A) :
  head (List.filter p l) = Some c ↔
  p c = true ∧
  ∃ before after, l = before ++ c :: after ∧ ∀ b, b ∈ before → p b = false.
Proof.
  induction l as [|a l IH]; simpl.
  - split; [done |]. intros (_ & [|? ?] & after & H & _); discriminate H.
  - destruct (p a) eqn:Ea; simpl.
    + split.
      * intros [= ->]. split; [done |]. exists [], l. split; [done |].
        intros b Hb. by apply elem_of_nil in Hb.
      * intros (Hc & [|b before] & after & Heq & Hbefore).
        -- by injection Heq as ->.
        -- injection Heq as Hab _. exfalso.
           assert (p b = false) as Hb by (apply Hbefore; left). congruence.
    + rewrite IH. split.
      * intros (Hc & before & after & -> & Hbefore). split; [done |].
        exists (a :: before), after. split; [done |].
        intros b [-> | Hb]%elem_of_cons; auto.
      * intros (Hc & [|b before] & after & Heq & Hbefore).
        -- injection Heq as -> _. congruence.
        -- injection Heq as _ ->. split; [done |]. exists before, after.
           split; [done |]. intros b' Hb'. apply Hbefore. by right.
Qed.

(** X8: a column name is comment-like when it holds "comment", "text" or
    "content" (case ignored). The comment column is "body" whenever the
    frame has it; otherwise it is the first comment-like column of the
    frame, when there is one; otherwise none is found and the script falls
    back on the first column of the frame, whatever it is. The column used
    is always a column of the frame, and only a frame without columns gives
    no column (the script then fails on [columns[0]]). *)
Theorem comment_column_resolution (columns : list string) :
  (∀ name, comment_like name = true ↔
           ∃ k, k ∈ ["comment"; "text"; "content"] ∧ occurs_in k name)
  ∧ ("body" ∈ columns → comment_column columns = Some "body")
  ∧ ("body" ∉ columns →
     ∀ c, comment_column columns = Some c ↔
          comment_like c = true ∧
          ∃ before after, columns = before ++ c :: after ∧
                          ∀ b, b ∈ before → comment_like b = false)
  ∧ (comment_column columns = None ↔
     ("body" ∉ columns) ∧ ∀ c, c ∈ columns → comment_like c = false)
  ∧ (∀ c, comment_column columns = Some c →
          comment_column_or_first columns = Some c)
  ∧ (comment_column columns = None →
     comment_column_or_first columns = head columns)
  ∧ (∀ c, comment_column_or_first columns = Some c → c ∈ columns)
  ∧ (comment_column_or_first columns = None ↔ columns = []).
Proof.
  assert (Hexists : existsb comment_like columns = false ↔
                    ∀ c, c ∈ columns → comment_like c = false).
  { rewrite <- not_true_iff_false, existsb_exists. split.
    - intros Hno c Hc. apply not_true_is_false. intros Hlike. apply Hno.
      exists c. by rewrite <- list_elem_of_In.
    - intros Hall (c & Hc & Hlike). apply list_elem_of_In, Hall in Hc. congruence. }
  split; [apply comment_like_spec |].
  split; [| split; [| split; [| split; [| split; [| split]]]]].
  - intros Hbody. unfold comment_column. by rewrite bool_decide_true.
  - intros Hbody c. unfold comment_column. rewrite bool_decide_false by done.
    destruct (existsb comment_like columns) eqn:E.
    + apply head_filter_first.
    + split; [done |]. intros (Hc & before & after & -> & _).
      assert (comment_like c = false) as Hf.
      { apply Hexists; [done |]. rewrite elem_of_app. right. left. }
      congruence.
  - unfold comment_column. case_bool_decide as Hbody.
    + split; [done | by intros [Hn _]].
    + destruct (existsb comment_like columns) eqn:E.
      * split; [| intros [_ Hall]; apply Hexists in Hall; congruence].
        intros Hhead. exfalso.
        apply existsb_exists in E as (c & Hc & Hlike).
        assert (c ∈ List.filter comment_like columns) as Hin
          by (apply list_elem_of_In, filter_In; by split).
        destruct (List.filter comment_like columns); [by apply elem_of_nil in Hin |].
        discriminate Hhead.
      * split; [| done]. intros _. split; [done | by apply Hexists].
  - intros c Hc. unfold comment_column_or_first. by rewrite Hc.
  - intros Hc. unfold comment_column_or_first. by rewrite Hc.
  - intros c. unfold comment_column_or_first.
    destruct (comment_column columns) as [c'|] eqn:E.
    + intros [= <-]. by apply comment_column_elem.
    + apply head_Some_elem_of.
  - unfold comment_column_or_first.
    destruct (comment_column columns) as [c'|] eqn:E.
    + split; [done |]. intros ->. discriminate E.
    + destruct columns; [done |]. split; [done | discriminate].
Qed.

End ColumnFacts.

(** ** The dictionary of reviewer types *)

Section ReviewerMapFacts.
Import Text Preprocess.

Lemma group_logins_app (k : Z) (rows rows' : list activity_row) :
  group_logins k (rows ++ rows') = group_logins k rows ++ group_logins k rows'.
Proof. unfold group_logins. by rewrite filter_app, fmap_app. Qed.

Lemma group_logins_Permutation (k : Z) (rows rows' : list activity_row) :
  rows ≡ₚ rows' → group_logins k rows ≡ₚ group_logins k rows'.
Proof. intros H. unfold group_logins. by rewrite H. Qed.

Lemma existsb_Permutation {A} (p : A → bool) (l l' : list A) :
  l ≡ₚ l' → existsb p l = existsb p l'.
Proof.
  intros H. apply eq_true_iff_eq. rewrite !existsb_exists.
  split; intros (x & Hx & Hp); exists x; split; try done;
    apply list_elem_of_In; apply list_elem_of_In in Hx;
    [by rewrite <- H | by rewrite H].
Qed.

Lemma reviewer_type_map_lookup (pr_reviews pr_comments : source) (pr : Z) :
  reviewer_type_map pr_reviews pr_comments !! pr =
  match source_logins pr_reviews pr ++ source_logins pr_comments pr with
  | [] => None
  | _ :: _ =>
      Some (if existsb is_bot_login
                 (source_logins pr_reviews pr ++ source_logins pr_comments pr)
            then "bot" else "human")
  end.
Proof. unfold reviewer_type_map. by rewrite analyse_twice_lookup. Qed.

(** X9: the dictionary has an entry exactly for the PR ids that have a
    row in a processed source, and every entry is "bot" or "human"; the
    string "none" is never stored, it only comes from the default of the
    final lookup. *)
Theorem reviewer_type_map_entries (pr_reviews pr_comments : source) :
  let d := reviewer_type_map pr_reviews pr_comments in
  (∀ pr, is_Some (d !! pr) ↔
         ∃ r, r ∈ source_rows pr_reviews ++ source_rows pr_comments ∧
              a_pr_id r = Some pr)
  ∧ (∀ pr v, d !! pr = Some v → v = "bot" ∨ v = "human")
  ∧ (∀ pr, d !! pr = None ↔ reviewer_type pr_reviews pr_comments pr = "none").
Proof.
  intros d. subst d.
  assert (Hsome : ∀ pr, is_Some (reviewer_type_map pr_reviews pr_comments !! pr) ↔
            source_logins pr_reviews pr ++ source_logins pr_comments pr ≠ []).
  { intros pr. rewrite reviewer_type_map_lookup.
    destruct (source_logins pr_reviews pr ++ source_logins pr_comments pr).
    - split; [intros [? H]; discriminate H | done].
    - split; [done | eauto]. }
  split; [| split].
  - intros pr. rewrite Hsome. split.
    + intros Hne.
      destruct (source_logins pr_reviews pr ++ source_logins pr_comments pr)
        as [|l ls] eqn:E; [done |].
      assert (l ∈ source_logins pr_reviews pr ++ source_logins pr_comments pr)
        as Hin by (rewrite E; left).
      apply elem_of_gathered_logins in Hin as (r & Hr & Hpr & _). by exists r.
    + intros (r & Hr & Hpr) Hnil.
      assert (fillna_login (a_login r) ∈
              source_logins pr_reviews pr ++ source_logins pr_comments pr) as Hin
        by (apply elem_of_gathered_logins; by exists r).
      rewrite Hnil in Hin. by apply elem_of_nil in Hin.
  - intros pr v. rewrite reviewer_type_map_lookup.
    destruct (source_logins pr_reviews pr ++ source_logins pr_comments pr);
      [done |].
    destruct (existsb is_bot_login (s :: l)); intros [= <-]; auto.
  - intros pr. unfold reviewer_type, map_reviewer_type.
    rewrite reviewer_type_map_lookup.
    destruct (source_logins pr_reviews pr ++ source_logins pr_comments pr);
      [done |].
    simpl. destruct (is_bot_login s || existsb is_bot_login l);
      split; discriminate.
Qed.

(** X10: the order of the rows inside the reviews and inside the
    comments does not matter: rearranged frames give the same dictionary. *)
Theorem reviewer_type_map_row_order (reviews reviews' comments comments' : list activity_row) :
  reviews ≡ₚ reviews' → comments ≡ₚ comments' →
  reviewer_type_map (Some reviews) (Some comments) =
  reviewer_type_map (Some reviews') (Some comments').
Proof.
  intros Hr Hc. apply map_eq. intros pr.
  rewrite !reviewer_type_map_lookup. simpl.
  assert (Hperm : group_logins pr reviews ++ group_logins pr comments ≡ₚ
                  group_logins pr reviews' ++ group_logins pr comments').
  { by rewrite (group_logins_Permutation pr _ _ Hr),
               (group_logins_Permutation pr _ _ Hc). }
  rewrite (existsb_Permutation _ _ _ Hperm).
  apply Permutation_length in Hperm.
  by destruct (group_logins pr reviews ++ group_logins pr comments),
              (group_logins pr reviews' ++ group_logins pr comments').
Qed.

Lemma reviewer_type_map_row_order_witness :
  reviewer_type_map
    (Some [ {| a_pr_id := Some 1; a_login := Some "alice" |};
            {| a_pr_id := Some 1; a_login := Some "devin-ai" |} ])
    (Some [ {| a_pr_id := Some 2; a_login := None |} ]) =
  reviewer_type_map
    (Some [ {| a_pr_id := Some 1; a_login := Some "devin-ai" |};
            {| a_pr_id := Some 1; a_login := Some "alice" |} ])
    (Some [ {| a_pr_id := Some 2; a_login := None |} ]).
Proof.
  apply reviewer_type_map_row_order.
  - apply perm_swap.
  - reflexivity.
Defined.

(** X11: more rows never take a label back: a PR that has a label other
    than "none" keeps one when rows are added to the reviews or to the
    comments, and a PR labelled "bot" stays "bot". *)
Theorem reviewer_type_kept_with_more_rows
    (reviews comments more_reviews more_comments : list activity_row) (pr : Z) :
  reviewer_type (Some reviews) (Some comments) pr ≠ "none" →
  reviewer_type (Some (reviews ++ more_reviews)) (Some (comments ++ more_comments)) pr
    ≠ "none"
  ∧ (reviewer_type (Some reviews) (Some comments) pr = "bot" →
     reviewer_type (Some (reviews ++ more_reviews))
                   (Some (comments ++ more_comments)) pr = "bot").
Proof.
  rewrite !reviewer_type_unfold. simpl. rewrite !group_logins_app, !existsb_app.
  destruct (group_logins pr reviews) as [|a la],
           (group_logins pr comments) as [|b lb]; simpl; [done | ..];
    intros _;
    repeat match goal with
           | |- context [is_bot_login ?x] => destruct (is_bot_login x)
           | |- context [existsb is_bot_login ?l] =>
               destruct (existsb is_bot_login l)
           end; simpl; (split; [| try done]);
    repeat match goal with
           | |- context [match ?l ++ _ with _ => _ end] => destruct l; simpl
           | |- context [match ?l with [] => _ | _ :: _ => _ end] =>
               destruct l; simpl
           end; done.
Qed.

Lemma reviewer_type_kept_with_more_rows_witness :
  let reviews := [ {| a_pr_id := Some 1; a_login := Some "Cursor[bot]" |} ] in
  let more := [ {| a_pr_id := Some 1; a_login := Some "alice" |} ] in
  reviewer_type (Some (reviews ++ more)) (Some ([] ++ more)) 1 ≠ "none"
  ∧ (reviewer_type (Some reviews) (Some []) 1 = "bot" →
     reviewer_type (Some (reviews ++ more)) (Some ([] ++ more)) 1 = "bot").
Proof.
  apply (reviewer_type_kept_with_more_rows
           [ {| a_pr_id := Some 1; a_login := Some "Cursor[bot]" |} ] []
           [ {| a_pr_id := Some 1; a_login := Some "alice" |} ]
           [ {| a_pr_id := Some 1; a_login := Some "alice" |} ] 1).
  vm_compute. discriminate.
Defined.

(** X12: running an analysis block a second time on its own result
    changes nothing, whatever the dictionary it started from. *)
Theorem analyse_idempotent (src : source) (d : gmap Z string) :
  analyse src (analyse src d) = analyse src d.
Proof.
  apply map_eq. intros pr. rewrite !analyse_lookup.
  destruct (source_logins src pr) as [|l ls]; [done |].
  unfold group_label. destruct (existsb is_bot_login (l :: ls)); [done |].
  by destruct (d !! pr).
Qed.

End ReviewerMapFacts.

(** ** Frames handed from 02_preprocess.py to the other scripts *)

Section FrameFacts.
Import Text.

Lemma bool_filter_sublist {A} (p : A → bool) (l : list A) :
  sublist (List.filter p l) l.
Proof.
  induction l as [|x l IH]; simpl; [constructor |].
  destruct (p x); by constructor.
Qed.

Lemma bool_filter_all {A} (p : A → bool) (l : list A) :
  (∀ x, x ∈ l → p x = true) → List.filter p l = l.
Proof.
  induction l as [|x l IH]; intros Hall; simpl; [done |].
  rewrite (Hall x) by left. f_equal. apply IH. intros y Hy. apply Hall. by right.
Qed.

Lemma elem_of_pr_clean (pr : list Frames.pr_record) (r : Frames.pr_record) :
  r ∈ Frames.pr_clean pr ↔ r ∈ pr ∧ Frames.duration_valid r = true.
Proof.
  unfold Frames.pr_clean. by rewrite !list_elem_of_In, filter_In.
Qed.

Lemma duration_valid_spec (r : Frames.pr_record) :
  Frames.duration_valid r = true ↔
  ∃ d, Frames.review_duration_hours r = Some d ∧ (0 <= d)%Q.
Proof.
  unfold Frames.duration_valid.
  destruct (Frames.review_duration_hours r) as [d|].
  - rewrite Qle_bool_iff. split; [by exists d | by intros (d' & [= <-] & H)].
  - split; [done | by intros (d & H & _)].
Qed.

Lemma elem_of_rq3_data (pr : list Frames.pr_record) (r : Frames.pr_record) :
  r ∈ Frames.rq3_data pr ↔
  r ∈ Frames.pr_clean pr ∧ Frames.author_type r = Some "ai".
Proof. unfold Frames.rq3_data. rewrite list_elem_of_filter. tauto. Qed.

(** X13: the cleaned frame keeps exactly the PRs that have a duration
    and whose duration is not negative, in their order; cleaning it again
    changes nothing, and the same filter applied once more before the box
    plot of the closed-loop figure keeps every row of rq3_data. *)
Theorem pr_clean_durations (pr : list Frames.pr_record) :
  (∀ r, r ∈ Frames.pr_clean pr ↔
        r ∈ pr ∧ ∃ d, Frames.review_duration_hours r = Some d ∧ (0 <= d)%Q)
  ∧ sublist (Frames.pr_clean pr) pr
  ∧ Frames.pr_clean (Frames.pr_clean pr) = Frames.pr_clean pr
  ∧ sublist (Frames.rq3_data pr) (Frames.pr_clean pr)
  ∧ Frames.rq3_data_clean (Frames.rq3_data pr) = Frames.rq3_data pr.
Proof.
  split; [| split; [| split; [| split]]].
  - intros r. by rewrite elem_of_pr_clean, duration_valid_spec.
  - apply bool_filter_sublist.
  - apply bool_filter_all. intros r Hr. by apply elem_of_pr_clean in Hr as [_ H].
  - apply sublist_filter.
  - apply bool_filter_all. intros r Hr.
    apply elem_of_rq3_data in Hr as [Hr _]. by apply elem_of_pr_clean in Hr as [_ H].
Qed.

Lemma dropna_all_present {A B} (f : A → option B) (l : list A) :
  (∀ x, x ∈ l → is_Some (f x)) → length (Rq3.dropna (f <$> l)) = length l.
Proof.
  unfold Rq3.dropna. induction l as [|x l IH]; intros Hall; [done |].
  destruct (Hall x) as [y Hy]; [left |].
  rewrite fmap_cons. simpl. rewrite Hy. simpl. f_equal.
  apply IH. intros z Hz. apply Hall. by right.
Qed.

Lemma rq3_rows_have_duration (pr : list Frames.pr_record) (r : Rq3.pr_row) :
  r ∈ Frames.to_rq3_row <$> Frames.rq3_data pr →
  ∃ d, Rq3.review_duration_hours r = Some d ∧ (0 <= d)%Q.
Proof.
  intros (p & -> & Hp)%list_elem_of_fmap.
  apply elem_of_rq3_data in Hp as [Hp _].
  apply elem_of_pr_clean in Hp as [_ Hp]. by apply duration_valid_spec in Hp.
Qed.

(** X14: on the rq3_data that 02_preprocess.py writes, no duration is
    missing or negative in either cohort, so each duration sample has the
    size of its cohort; the duration of a cohort is described exactly when
    the cohort is not empty, and the rank-sum test on durations is run
    exactly when both cohorts are not empty. *)
Theorem duration_samples_after_cleaning (pr : list Frames.pr_record) :
  let df := Frames.to_rq3_row <$> Frames.rq3_data pr in
  length (Rq3.closed_loop_duration df) = length (Rq3.closed_loop_prs df)
  ∧ length (Rq3.open_loop_duration df) = length (Rq3.open_loop_prs df)
  ∧ (∀ d, d ∈ Rq3.closed_loop_duration df ++ Rq3.open_loop_duration df → (0 <= d)%Q)
  ∧ (Rq3.Descriptive "review_duration_hours" "closed-loop"
         (Rq3.closed_loop_duration df) (length (Rq3.closed_loop_prs df))
       ∈ Rq3.results df ↔ Rq3.closed_loop_prs df ≠ [])
  ∧ (Rq3.RankSum "review_duration_hours"
         (Rq3.closed_loop_duration df) (Rq3.open_loop_duration df)
       ∈ Rq3.results df ↔
     Rq3.closed_loop_prs df ≠ [] ∧ Rq3.open_loop_prs df ≠ []).
Proof.
  intros df.
  assert (Hall : ∀ v r, r ∈ Rq3.select_eq Rq3.closed_loop v df →
                        is_Some (Rq3.review_duration_hours r)).
  { intros v r [_ Hr]%elem_of_select_eq.
    destruct (rq3_rows_have_duration pr r Hr) as (d & Hd & _). by exists d. }
  assert (Hc : length (Rq3.closed_loop_duration df) = length (Rq3.closed_loop_prs df))
    by (apply dropna_all_present, Hall).
  assert (Ho : length (Rq3.open_loop_duration df) = length (Rq3.open_loop_prs df))
    by (apply dropna_all_present, Hall).
  assert (Hnil : ∀ {A B} (l : list A) (k : list B),
             length l = length k → (l ≠ [] ↔ k ≠ [])).
  { intros A B l k Hlen. destruct l, k; simpl in Hlen; try discriminate Hlen;
      split; done. }
  split; [done | split; [done | split; [| split]]].
  - intros d [Hd | Hd]%elem_of_app;
      apply elem_of_dropna, list_elem_of_fmap in Hd as (r & Hr & [_ Hin]%elem_of_select_eq);
      destruct (rq3_rows_have_duration pr r Hin) as (d' & Hd' & Hpos);
      congruence.
  - rewrite <- (Hnil _ _ _ _ Hc), <- Hc.
    rewrite elem_of_results, !elem_of_describe, !elem_of_rank_sum, elem_of_chi_square.
    split.
    + intros [H | [[_ H] | [[H _] | [H | [H | [[H _] | [[H _] | [[H _] | [[H _] | [H _]]]]]]]]]];
        try discriminate H; done.
    + intros H. right. left. done.
  - rewrite <- (Hnil _ _ _ _ Hc), <- (Hnil _ _ _ _ Ho).
    rewrite elem_of_results, !elem_of_describe, !elem_of_rank_sum, elem_of_chi_square.
    split.
    + intros [H | [[H _] | [[H _] | [H | [H | [[H _] | [[H _] | [[_ H] | [[H _] | [H _]]]]]]]]]];
        try discriminate H; done.
    + intros H. do 7 right. left. done.
Qed.

Lemma filter_no_match {A} (P : A → Prop) `{∀ x, Decision (P x)} (l : list A) :
  (∀ x, x ∈ l → ¬ P x) → filter P l = [].
Proof.
  induction l as [|x l IH]; intros Hno; [done |].
  rewrite filter_cons, decide_False by (apply Hno; left).
  apply IH. intros y Hy. apply Hno. by right.
Qed.

Lemma elem_of_rq2_data
    (pr_comments : list Frames.comment_record) (pr : list Frames.pr_record)
    (c : Frames.comment_record) (p : Frames.pr_record) :
  (c, p) ∈ Frames.rq2_data pr_comments pr ↔
  c ∈ pr_comments ∧ p ∈ Frames.pr_clean pr ∧
  Frames.c_pr_id c = Some (Frames.id p) ∧ Frames.author_type p = Some "ai".
Proof.
  unfold Frames.rq2_data, Frames.rq2_pr_comments.
  rewrite list_elem_of_filter, list_elem_of_bind. simpl. split.
  - intros (Hai & c' & Hin & Hc').
    apply list_elem_of_fmap in Hin as (p' & [= <- <-] & Hp').
    apply list_elem_of_filter in Hp' as [Hlink Hp']. done.
  - intros (Hc & Hp & Hlink & Hai). split; [done |].
    exists c. split; [| done]. apply list_elem_of_fmap. exists p.
    split; [done |]. by apply list_elem_of_filter.
Qed.

(** X15: rq2_data pairs a comment with a PR exactly when the comment
    links to that PR, the PR passed the cleaning and its author type is
    "ai". When the PR ids are all different, no comment is paired twice:
    the comments of rq2_data are comments of pr_comments in their order,
    each at most once. *)
Theorem rq2_data_rows
    (pr_comments : list Frames.comment_record) (pr : list Frames.pr_record) :
  NoDup (Frames.id <$> pr) →
  sublist (Frames.rq2_data pr_comments pr).*1 pr_comments
  ∧ (length (Frames.rq2_data pr_comments pr) ≤ length pr_comments)%nat
  ∧ (∀ c p, (c, p) ∈ Frames.rq2_data pr_comments pr ↔
       c ∈ pr_comments ∧ p ∈ Frames.pr_clean pr ∧
       Frames.c_pr_id c = Some (Frames.id p) ∧ Frames.author_type p = Some "ai").
Proof.
  intros Hnd.
  assert (Hclean : NoDup (Frames.id <$> Frames.pr_clean pr)).
  { eapply sublist_NoDup; [exact Hnd |].
    apply fmap_sublist, bool_filter_sublist. }
  assert (Hsub : sublist (Frames.rq2_data pr_comments pr).*1 pr_comments).
  { unfold Frames.rq2_data, Frames.rq2_pr_comments.
    induction pr_comments as [|c cs IH]; [constructor |].
    rewrite bind_cons, filter_app, fmap_app.
    apply (sublist_app _ [c]); [| exact IH].
    pose proof (group_size_NoDup Frames.id) as Hle.
    assert (Hcases : (∃ k, Frames.c_pr_id c = Some k) ∨ Frames.c_pr_id c = None)
      by (destruct (Frames.c_pr_id c); eauto).
    destruct Hcases as [[k Ek] | Ek].
    - specialize (Hle k (Frames.pr_clean pr) Hclean).
      assert (Heq : filter (fun p => Frames.c_pr_id c = Some (Frames.id p))
                           (Frames.pr_clean pr)
                    = filter (fun p => Frames.id p = k) (Frames.pr_clean pr)).
      { apply list_filter_iff. intros p. rewrite Ek.
        split; [by intros [= ->] | by intros ->]. }
      rewrite Heq.
      destruct (filter (fun p => Frames.id p = k) (Frames.pr_clean pr))
        as [|p [|q ps]]; simpl in *; [apply sublist_nil_l | | lia].
      rewrite filter_cons, filter_nil. simpl.
      destruct (decide (Frames.author_type p = Some "ai")); simpl;
        [by repeat constructor | apply sublist_nil_l].
    - assert (Heq : filter (fun p => Frames.c_pr_id c = Some (Frames.id p))
                           (Frames.pr_clean pr) = []).
      { apply filter_no_match. intros p _. rewrite Ek. discriminate. }
      rewrite Heq. apply sublist_nil_l. }
  split; [done | split].
  - apply sublist_length in Hsub. by rewrite length_fmap in Hsub.
  - intros c p. apply elem_of_rq2_data.
Qed.

Lemma rq2_data_rows_witness :
  let pr :=
    [ {| Frames.id := 1; Frames.author_type := Some "ai"; Frames.merged := Some 1;
         Frames.review_duration_hours := Some (3 # 1)%Q;
         Frames.n_comments := None; Frames.closed_loop := Some 1 |};
      {| Frames.id := 2; Frames.author_type := Some "ai"; Frames.merged := Some 0;
         Frames.review_duration_hours := None;
         Frames.n_comments := None; Frames.closed_loop := Some 0 |} ] in
  let pr_comments :=
    [ {| Frames.c_pr_id := Some 2; Frames.c_body := Some "fix" |};
      {| Frames.c_pr_id := Some 1; Frames.c_body := Some "lgtm" |} ] in
  sublist (Frames.rq2_data pr_comments pr).*1 pr_comments
  ∧ (length (Frames.rq2_data pr_comments pr) ≤ length pr_comments)%nat
  ∧ (∀ c p, (c, p) ∈ Frames.rq2_data pr_comments pr ↔
       c ∈ pr_comments ∧ p ∈ Frames.pr_clean pr ∧
       Frames.c_pr_id c = Some (Frames.id p) ∧ Frames.author_type p = Some "ai").
Proof.
  intros pr pr_comments. apply (rq2_data_rows pr_comments pr).
  apply (bool_decide_unpack _). by vm_compute.
Defined.

End FrameFacts.

(** ** The contingency table *)

Section CrosstabFacts.
Import Rq3.

Lemma sum_list_with_ext_in {K} (g h : K → nat) (ks : list K) :
  (∀ k, k ∈ ks → g k = h k) → sum_list_with g ks = sum_list_with h ks.
Proof.
  induction ks as [|k ks IH]; intros Hext; [done |].
  rewrite !sum_list_with_cons, (Hext k) by left.
  f_equal. apply IH. intros j Hj. apply Hext. by right.
Qed.

Lemma elem_of_sorted_unique (l : list Z) (x : Z) : x ∈ sorted_unique l ↔ x ∈ l.
Proof. unfold sorted_unique. by rewrite merge_sort_Permutation, elem_of_remove_dups. Qed.

Lemma NoDup_sorted_unique (l : list Z) : NoDup (sorted_unique l).
Proof. unfold sorted_unique. rewrite merge_sort_Permutation. apply NoDup_remove_dups. Qed.

Lemma Sorted_sorted_unique (l : list Z) : Sorted Z.le (sorted_unique l).
Proof. unfold sorted_unique. apply Sorted_merge_sort. apply _. Qed.

Lemma pair_group_row (pairs : list (Z * Z)) (i j : Z) :
  filter (fun p => p = (i, j)) pairs =
  filter (fun p => p.2 = j) (filter (fun p => p.1 = i) pairs).
Proof.
  rewrite list_filter_filter. apply list_filter_iff.
  intros [a b]. simpl. split; [by intros [= -> ->] | by intros [-> ->]].
Qed.

Lemma pair_group_column (pairs : list (Z * Z)) (i j : Z) :
  filter (fun p => p = (i, j)) pairs =
  filter (fun p => p.1 = i) (filter (fun p => p.2 = j) pairs).
Proof.
  rewrite list_filter_filter. apply list_filter_iff.
  intros [a b]. simpl. split; [by intros [= -> ->] | by intros [-> ->]].
Qed.

(** The cells of one row add up to the number of pairs with its label. *)
Lemma crosstab_row_total (pairs : list (Z * Z)) (i : Z) :
  sum_list_with (fun j => length (filter (fun p => p = (i, j)) pairs))
                (sorted_unique pairs.*2) =
  length (filter (fun p => p.1 = i) pairs).
Proof.
  erewrite sum_list_with_ext_in;
    [| intros j _; by rewrite pair_group_row].
  apply (sum_group_sizes snd); [apply NoDup_sorted_unique |].
  intros p [_ Hp]%list_elem_of_filter.
  apply elem_of_sorted_unique, list_elem_of_fmap. by exists p.
Qed.

Lemma crosstab_column_total (pairs : list (Z * Z)) (j : Z) :
  sum_list_with (fun i => length (filter (fun p => p = (i, j)) pairs))
                (sorted_unique pairs.*1) =
  length (filter (fun p => p.2 = j) pairs).
Proof.
  erewrite sum_list_with_ext_in;
    [| intros i _; by rewrite pair_group_column].
  apply (sum_group_sizes fst); [apply NoDup_sorted_unique |].
  intros p [_ Hp]%list_elem_of_filter.
  apply elem_of_sorted_unique, list_elem_of_fmap. by exists p.
Qed.

Lemma observed_pairs_length (df : list pr_row) :
  length (observed_pairs (closed_loop <$> df) (merged <$> df)) =
  length (filter (fun r => is_Some (closed_loop r) ∧ is_Some (merged r)) df).
Proof.
  induction df as [|r df IH]; [done |].
  rewrite observed_pairs_cons, length_app, IH, filter_cons.
  destruct (decide (is_Some (closed_loop r) ∧ is_Some (merged r)))
    as [[[i Hi] [j Hj]] | Hno].
  - by rewrite Hi, Hj.
  - destruct (closed_loop r) as [i|], (merged r) as [j|]; simpl; try done.
    exfalso. apply Hno. split; eauto.
Qed.

(** X16: the contingency table is rectangular, its row and column labels
    are in increasing order without repetition, its cells add up to the
    number of PRs that have both a closed_loop and a merged value, and no
    row and no column of it has total zero. *)
Theorem contingency_table_well_formed (rq3_data : list pr_row) :
  let t := contingency_table rq3_data in
  length (ct_counts t) = length (ct_index t)
  ∧ Forall (fun row => length row = length (ct_columns t)) (ct_counts t)
  ∧ NoDup (ct_index t) ∧ Sorted Z.le (ct_index t)
  ∧ NoDup (ct_columns t) ∧ Sorted Z.le (ct_columns t)
  ∧ sum_list (sum_list <$> ct_counts t) =
    length (filter (fun r => is_Some (closed_loop r) ∧ is_Some (merged r)) rq3_data)
  ∧ Forall (fun row => (0 < sum_list row)%nat) (ct_counts t)
  ∧ (∀ b, (b < length (ct_columns t))%nat →
          (0 < sum_list ((fun row => default 0%nat (row !! b)) <$> ct_counts t))%nat).
Proof.
  intros t. subst t. unfold contingency_table, pd_crosstab.
  cbn [ct_index ct_columns ct_counts].
  rewrite <- observed_pairs_length.
  set (pairs := observed_pairs (closed_loop <$> rq3_data) (merged <$> rq3_data)).
  repeat split.
  - by rewrite length_fmap.
  - apply Forall_fmap, Forall_forall. intros i _. simpl. by rewrite length_fmap.
  - apply NoDup_sorted_unique.
  - apply Sorted_sorted_unique.
  - apply NoDup_sorted_unique.
  - apply Sorted_sorted_unique.
  - rewrite <- list_fmap_compose, sum_list_fmap_with.
    erewrite sum_list_with_ext_in.
    + apply (sum_group_sizes fst); [apply NoDup_sorted_unique |].
      intros p Hp. apply elem_of_sorted_unique, list_elem_of_fmap. by exists p.
    + intros i _. simpl. rewrite sum_list_fmap_with. apply crosstab_row_total.
  - apply Forall_fmap, Forall_forall. intros i Hi. simpl.
    rewrite sum_list_fmap_with, crosstab_row_total.
    apply (group_size_positive fst).
    apply elem_of_sorted_unique, list_elem_of_fmap in Hi as (p & -> & Hp).
    by exists p.
  - intros b Hb.
    destruct (lookup_lt_is_Some_2 (sorted_unique pairs.*2) b Hb) as [j Hj].
    rewrite <- list_fmap_compose, sum_list_fmap_with.
    erewrite sum_list_with_ext_in.
    + rewrite (crosstab_column_total pairs j).
      apply (group_size_positive snd).
      apply list_elem_of_lookup_2, elem_of_sorted_unique, list_elem_of_fmap in Hj
        as (p & -> & Hp).
      by exists p.
    + intros i _. simpl. by rewrite list_lookup_fmap, Hj.
Qed.

End CrosstabFacts.

(** ** Tests, descriptions and the summary *)

Section SummaryFacts.
Import Rq3 Rq3Summary.

Lemma nonempty_ltb {A} (l : list A) : (0 <? length l)%nat = true ↔ l ≠ [].
Proof. destruct l; simpl; split; done. Qed.

Lemma both_nonempty {A} (x y : list A) :
  (0 <? length x)%nat && (0 <? length y)%nat = true ↔ x ≠ [] ∧ y ≠ [].
Proof. by rewrite andb_true_iff, !nonempty_ltb. Qed.

Lemma descriptive_in_results
    (rq3_data : list pr_row) (metric group : string) (values : list Q) (count : nat) :
  Descriptive metric group values count ∈ results rq3_data ↔
    values ≠ [] ∧ count = length values ∧
    (   (metric = "review_duration_hours" ∧ group = "closed-loop" ∧
         values = closed_loop_duration rq3_data)
      ∨ (metric = "review_duration_hours" ∧ group = "open-loop" ∧
         values = open_loop_duration rq3_data)
      ∨ (metric = "n_comments" ∧ group = "closed-loop" ∧
         values = closed_loop_comments rq3_data)
      ∨ (metric = "n_comments" ∧ group = "open-loop" ∧
         values = open_loop_comments rq3_data)).
Proof.
  rewrite elem_of_results, !elem_of_describe, !elem_of_rank_sum, elem_of_chi_square.
  split.
  - intros [H | [[H Hne] | [[H Hne] | [H | [H | [[H Hne] | [[H Hne] | [[H _] | [[H _] | [H _]]]]]]]]]];
      try discriminate H; injection H as -> -> -> ->; repeat split; auto 10.
  - intros (Hne & -> & [(-> & -> & ->) | [(-> & -> & ->) | [(-> & -> & ->) | (-> & -> & ->)]]]).
    + right. left. done.
    + do 2 right. left. done.
    + do 5 right. left. done.
    + do 6 right. left. done.
Qed.

Lemma test_in_results (rq3_data : list pr_row) (t : result_row) :
  t ∈ results rq3_data ∧
  ((∃ m x y, t = RankSum m x y) ∨ (∃ table, t = ChiSquare table)) ↔
    (t = RankSum "review_duration_hours"
                 (closed_loop_duration rq3_data) (open_loop_duration rq3_data) ∧
     closed_loop_duration rq3_data ≠ [] ∧ open_loop_duration rq3_data ≠ [])
  ∨ (t = ChiSquare (contingency_table rq3_data) ∧
     (0 < ct_size (contingency_table rq3_data))%nat)
  ∨ (t = RankSum "n_comments"
                 (closed_loop_comments rq3_data) (open_loop_comments rq3_data) ∧
     closed_loop_comments rq3_data ≠ [] ∧ open_loop_comments rq3_data ≠ []).
Proof.
  rewrite elem_of_results, !elem_of_describe, !elem_of_rank_sum, elem_of_chi_square.
  split.
  - intros [Hin [(m & x & y & ->) | (table & ->)]];
      destruct Hin as [H | [[H _] | [[H _] | [H | [H | [[H _] | [[H _] | [H | [H | H]]]]]]]]];
      try discriminate H; tauto.
  - intros [(-> & H) | [(-> & H) | (-> & H)]].
    + split; [do 7 right; left; done | left; eauto].
    + split; [do 8 right; left; done | right; eauto].
    + split; [do 9 right; done | left; eauto].
Qed.

(** X17: a rank-sum row is in [results] exactly when the two descriptive
    rows of the same metric, one per cohort, are there, and it is computed
    from the very samples these rows describe. *)
Theorem tests_follow_descriptions
    (rq3_data : list pr_row) (metric : string) (x y : list Q) :
  RankSum metric x y ∈ results rq3_data ↔
  Descriptive metric "closed-loop" x (length x) ∈ results rq3_data ∧
  Descriptive metric "open-loop" y (length y) ∈ results rq3_data.
Proof.
  rewrite !descriptive_in_results. split.
  - intros Hin.
    assert (Htest : RankSum metric x y ∈ results rq3_data ∧
              ((∃ m a b, RankSum metric x y = RankSum m a b) ∨
               (∃ table, RankSum metric x y = ChiSquare table)))
      by (split; [done | left; eauto]).
    apply test_in_results in Htest
      as [([= -> -> ->] & Hx & Hy) | [(H & _) | ([= -> -> ->] & Hx & Hy)]];
      [| discriminate H |]; repeat split; auto 10.
  - intros [(Hx & _ & Hcl) (Hy & _ & Hop)].
    assert (Hgoal : RankSum metric x y ∈ results rq3_data ∧
              ((∃ m a b, RankSum metric x y = RankSum m a b) ∨
               (∃ table, RankSum metric x y = ChiSquare table)));
      [| by destruct Hgoal].
    apply test_in_results.
    destruct Hcl as [(-> & _ & ->) | [(_ & H & _) | [(-> & _ & ->) | (_ & H & _)]]];
      try discriminate H;
      destruct Hop as [(_ & H & _) | [(Hm & _ & ->) | [(_ & H & _) | (Hm & _ & ->)]]];
      try discriminate H; try discriminate Hm;
      first [ left; by repeat split | do 2 right; by repeat split ].
Qed.

Lemma tested_line_columns (s : summary_columns) (label metric : string) (x y : list Q) :
  let both := (0 <? length x)%nat && (0 <? length y)%nat in
  tested_line s label metric x y =
  append_line s label
    (if both then MedianCell x else NA) (if both then MedianCell y else NA)
    (if both then MeanCell x else NA) (if both then MeanCell y else NA)
    (if both then PValueCell (RankSum metric x y) else NA)
    (if both then EffectSizeCell (RankSum metric x y) else NA).
Proof.
  unfold tested_line. by destruct ((0 <? length x)%nat && (0 <? length y)%nat).
Qed.

(** X18: the summary always has the same four lines and seven full
    columns, whatever the data. Its P_Value column shows the p-value of a
    test exactly when the row of that test is in [results], and "N/A"
    otherwise: the rank-sum test on durations on the second line, the
    chi-square test on the third, the rank-sum test on comments on the
    fourth, never anything on the first. Its Effect_Size column shows an
    effect size exactly for the rank-sum rows of [results], on their
    lines. *)
Theorem summary_reports_tests (rq3_data : list pr_row) :
  let s := summary rq3_data in
  Metric s = [ "Closed-Loop Proportion"; "Review Duration (hours)";
               "Merge Rate"; "Number of Comments" ]
  ∧ (length (Closed_Loop_Median s) = 4 ∧ length (Open_Loop_Median s) = 4 ∧
     length (Closed_Loop_Mean s) = 4 ∧ length (Open_Loop_Mean s) = 4 ∧
     length (P_Value s) = 4 ∧ length (Effect_Size s) = 4)%nat
  ∧ (∀ t, PValueCell t ∈ P_Value s ↔
          t ∈ results rq3_data ∧
          ((∃ m x y, t = RankSum m x y) ∨ (∃ table, t = ChiSquare table)))
  ∧ (∀ t, EffectSizeCell t ∈ Effect_Size s ↔
          t ∈ results rq3_data ∧ ∃ m x y, t = RankSum m x y)
  ∧ Forall (fun c => c = NA ∨ ∃ t, c = PValueCell t) (P_Value s)
  ∧ Forall (fun c => c = NA ∨ ∃ t, c = EffectSizeCell t) (Effect_Size s)
  ∧ (P_Value s !! 0%nat = Some NA ∧ Effect_Size s !! 0%nat = Some NA ∧
     Effect_Size s !! 2%nat = Some NA)
  ∧ (∀ t, P_Value s !! 1%nat = Some (PValueCell t) ∨
          Effect_Size s !! 1%nat = Some (EffectSizeCell t) →
          ∃ x y, t = RankSum "review_duration_hours" x y)
  ∧ (∀ t, P_Value s !! 2%nat = Some (PValueCell t) → ∃ table, t = ChiSquare table)
  ∧ (∀ t, P_Value s !! 3%nat = Some (PValueCell t) ∨
          Effect_Size s !! 3%nat = Some (EffectSizeCell t) →
          ∃ x y, t = RankSum "n_comments" x y).
Proof.
  intros s. subst s. unfold summary. rewrite !tested_line_columns. cbv zeta.
  unfold append_line, empty_summary.
  cbn [Metric Closed_Loop_Median Open_Loop_Median Closed_Loop_Mean
       Open_Loop_Mean P_Value Effect_Size app].
  pose proof (both_nonempty (closed_loop_duration rq3_data)
                            (open_loop_duration rq3_data)) as Hd.
  pose proof (both_nonempty (closed_loop_comments rq3_data)
                            (open_loop_comments rq3_data)) as Hc.
  pose proof (Nat.ltb_lt 0 (ct_size (contingency_table rq3_data))) as Ht.
  split; [done |]. split; [done |].
  split; [| split; [| split; [| split; [| split; [done | split; [| split]]]]]].
  - intros t. rewrite test_in_results.
    destruct ((0 <? length (closed_loop_duration rq3_data))%nat &&
              (0 <? length (open_loop_duration rq3_data))%nat),
             ((0 <? length (closed_loop_comments rq3_data))%nat &&
              (0 <? length (open_loop_comments rq3_data))%nat),
             (0 <? ct_size (contingency_table rq3_data))%nat;
      rewrite !elem_of_cons, elem_of_nil;
      (split;
       [ intros H; repeat destruct H as [H | H]; try discriminate H;
         try done; injection H as ->;
         first [ left; split; [reflexivity | by apply Hd]
               | right; left; split; [reflexivity | by apply Ht]
               | right; right; split; [reflexivity | by apply Hc] ]
       | intros [[-> H] | [[-> H] | [-> H]]];
         [apply Hd in H | apply Ht in H | apply Hc in H];
         try discriminate H; repeat first [by left | right] ]).
  - intros t.
    assert (Hrs : t ∈ results rq3_data ∧ (∃ m x y, t = RankSum m x y) ↔
              (t = RankSum "review_duration_hours"
                     (closed_loop_duration rq3_data) (open_loop_duration rq3_data) ∧
               closed_loop_duration rq3_data ≠ [] ∧ open_loop_duration rq3_data ≠ [])
            ∨ (t = RankSum "n_comments"
                     (closed_loop_comments rq3_data) (open_loop_comments rq3_data) ∧
               closed_loop_comments rq3_data ≠ [] ∧ open_loop_comments rq3_data ≠ [])).
    { split.
      - intros [Hin (m & x & y & ->)].
        assert (Htest : RankSum m x y ∈ results rq3_data ∧
                  ((∃ m' a b, RankSum m x y = RankSum m' a b) ∨
                   (∃ table, RankSum m x y = ChiSquare table)))
          by (split; [done | left; eauto]).
        apply test_in_results in Htest as [H | [[H _] | H]];
          [tauto | discriminate H | tauto].
      - intros [(-> & H) | (-> & H)].
        + split; [| eauto]. apply (test_in_results rq3_data). tauto.
        + split; [| eauto]. apply (test_in_results rq3_data). tauto. }
    rewrite Hrs.
    destruct ((0 <? length (closed_loop_duration rq3_data))%nat &&
              (0 <? length (open_loop_duration rq3_data))%nat),
             ((0 <? length (closed_loop_comments rq3_data))%nat &&
              (0 <? length (open_loop_comments rq3_data))%nat);
      rewrite !elem_of_cons, elem_of_nil;
      (split;
       [ intros H; repeat destruct H as [H | H]; try discriminate H;
         try done; injection H as ->;
         first [ left; split; [reflexivity | by apply Hd]
               | right; split; [reflexivity | by apply Hc] ]
       | intros [[-> H] | [-> H]];
         [apply Hd in H | apply Hc in H];
         try discriminate H; repeat first [by left | right] ]).
  - destruct ((0 <? length (closed_loop_duration rq3_data))%nat &&
              (0 <? length (open_loop_duration rq3_data))%nat),
             ((0 <? length (closed_loop_comments rq3_data))%nat &&
              (0 <? length (open_loop_comments rq3_data))%nat),
             (0 <? ct_size (contingency_table rq3_data))%nat;
      apply Forall_forall; intros c Hin;
      rewrite !elem_of_cons, elem_of_nil in Hin;
      repeat destruct Hin as [-> | Hin]; eauto; done.
  - destruct ((0 <? length (closed_loop_duration rq3_data))%nat &&
              (0 <? length (open_loop_duration rq3_data))%nat),
             ((0 <? length (closed_loop_comments rq3_data))%nat &&
              (0 <? length (open_loop_comments rq3_data))%nat);
      apply Forall_forall; intros c Hin;
      rewrite !elem_of_cons, elem_of_nil in Hin;
      repeat destruct Hin as [-> | Hin]; eauto; done.
  - intros t.
    destruct ((0 <? length (closed_loop_duration rq3_data))%nat &&
              (0 <? length (open_loop_duration rq3_data))%nat);
      intros [[= <-] | [= <-]]; eauto.
  - intros t. destruct (0 <? ct_size (contingency_table rq3_data))%nat;
      intros [= <-]; eauto.
  - intros t.
    destruct ((0 <? length (closed_loop_comments rq3_data))%nat &&
              (0 <? length (open_loop_comments rq3_data))%nat);
      intros [[= <-] | [= <-]]; eauto.
Qed.

End SummaryFacts.
